(** * aws-c-cal, source/ecc.c: curve registry, DER key-material decoder and
    key-pair handle.

    The development follows the C file top to bottom.  Integers of the C
    program are values of [Z]; [size_t] arithmetic is written with its
    wrap-around modulo [2^64].  A pointer is a base object and an offset, the
    null pointer apart; a byte cursor is the pair of a length and a pointer, as
    in aws-c-common. *)

From Stdlib Require Import ZArith List Bool Lia.
Import ListNotations.
Local Open Scope Z_scope.

(* ===================================================================== *)
(** ** The parts of aws-c-common that ecc.c calls *)
(* ===================================================================== *)

Module Common.

(** [size_t] on the 64-bit targets of the library. *)
Definition SIZE_BITS : Z := 64.
Definition SIZE_MAX : Z := 2 ^ SIZE_BITS - 1.
Definition size_t_wrap (n : Z) : Z := n mod (SIZE_MAX + 1).

(** The objects a pointer of this file can point into: the two static OID
    arrays of ecc.c and the caller's buffer that the DER decoder walks. *)
Inductive object : Type :=
| obj_s_p256_oid
| obj_s_p384_oid
| obj_buffer.

Inductive pointer : Type :=
| NULL
| Ptr (base : object) (off : Z).

(** [p != NULL], the truth value of a pointer in a C condition. *)
Definition is_non_null (p : pointer) : bool :=
  match p with
  | NULL => false
  | Ptr _ _ => true
  end.

(** [p + n].  Arithmetic on the null pointer is not defined in C; the model
    leaves it null. *)
Definition ptr_add (p : pointer) (n : Z) : pointer :=
  match p with
  | NULL => NULL
  | Ptr b off => Ptr b (off + n)
  end.

(** [struct aws_byte_cursor { size_t len; uint8_t *ptr; }]. *)
Record aws_byte_cursor : Type := mk_cursor {
  len : Z;
  ptr : pointer;
}.

(** [AWS_ZERO_STRUCT] on a cursor. *)
Definition zero_cursor : aws_byte_cursor := {| len := 0; ptr := NULL |}.

(** Bytes are [uint8_t] values.  [nth_byte] reads an array, giving 0 outside
    of it (a read outside an object has no defined result in C). *)
Definition nth_byte (bytes : list Z) (i : Z) : Z :=
  if i <? 0 then 0 else nth (Z.to_nat i) bytes 0.

(** Modelled from the spec: the error codes of aws/cal/cal.h that ecc.c
    raises. *)
Inductive aws_cal_errors : Type :=
| AWS_ERROR_CAL_UNKNOWN_OBJECT_IDENTIFIER
| AWS_ERROR_CAL_UNSUPPORTED_ALGORITHM
| AWS_ERROR_CAL_MISSING_REQUIRED_KEY_COMPONENT.

(** [int] results: [AWS_OP_SUCCESS], or [AWS_OP_ERR] returned through
    [aws_raise_error (code)], which records [code] as the last error. *)
Inductive aws_op : Type :=
| AWS_OP_SUCCESS
| AWS_OP_ERR (last_error : aws_cal_errors).

Definition aws_raise_error (code : aws_cal_errors) : aws_op := AWS_OP_ERR code.

(** [!r] for an [int] result [r]: true exactly on [AWS_OP_SUCCESS] (0). *)
Definition is_success (r : aws_op) : bool :=
  match r with
  | AWS_OP_SUCCESS => true
  | AWS_OP_ERR _ => false
  end.

(** [aws_byte_cursor_advance (cursor, len)]: the cursor after the call (the
    returned head is not used by ecc.c). *)
Definition aws_byte_cursor_advance (cursor : aws_byte_cursor) (n : Z)
  : aws_byte_cursor :=
  if (len cursor >? Z.shiftr SIZE_MAX 1) || (n >? Z.shiftr SIZE_MAX 1)
     || (n >? len cursor)
  then cursor
  else {| len := size_t_wrap (len cursor - n);
          ptr := ptr_add (ptr cursor) n |}.

End Common.
Export Common.

(* ===================================================================== *)
(** ** Curve registry (ecc.c, lines 26-72 and 121-130) *)
(* ===================================================================== *)

(** Modelled from the spec: [enum aws_ecc_curve_name] of aws/cal/ecc.h, the
    closed enumeration {P256, P384}, by the ordinals of its members (the
    values index [s_ecc_curve_oids] below). *)
Definition AWS_CAL_ECDSA_P256 : Z := 0.
Definition AWS_CAL_ECDSA_P384 : Z := 1.

Definition s_p256_oid : list Z :=
  [0x2A; 0x86; 0x48; 0xCE; 0x3D; 0x03; 0x01; 0x07].

Definition s_p384_oid : list Z :=
  [0x2B; 0x81; 0x04; 0x00; 0x22].

(** [sizeof (a)] for an array of bytes. *)
Definition sizeof_array (a : list Z) : Z := Z.of_nat (length a).

(** [STATIC_INIT_BYTE_CURSOR]: a cursor over a whole static array. *)
Definition s_ecc_p256_oid : aws_byte_cursor :=
  {| len := sizeof_array s_p256_oid; ptr := Ptr obj_s_p256_oid 0 |}.

Definition s_ecc_p384_oid : aws_byte_cursor :=
  {| len := sizeof_array s_p384_oid; ptr := Ptr obj_s_p384_oid 0 |}.

(** [s_ecc_curve_oids], indexed by curve name. *)
Definition s_ecc_curve_oids : list aws_byte_cursor :=
  [s_ecc_p256_oid; s_ecc_p384_oid].

(** Memory: the contents of the caller's buffer.  The static arrays are part
    of the program. *)
Definition memory : Type := list Z.

Definition load (m : memory) (p : pointer) : Z :=
  match p with
  | NULL => 0
  | Ptr obj_s_p256_oid off => nth_byte s_p256_oid off
  | Ptr obj_s_p384_oid off => nth_byte s_p384_oid off
  | Ptr obj_buffer off => nth_byte m off
  end.

(** The bytes a cursor views. *)
Definition cursor_bytes (m : memory) (c : aws_byte_cursor) : list Z :=
  map (fun i => load m (ptr_add (ptr c) (Z.of_nat i)))
      (seq 0 (Z.to_nat (len c))).

(** [memcmp (a, b, n) == 0]. *)
Definition memcmp_eq (m : memory) (a b : pointer) (n : Z) : bool :=
  forallb (fun i => load m (ptr_add a (Z.of_nat i))
                    =? load m (ptr_add b (Z.of_nat i)))
          (seq 0 (Z.to_nat n)).

(** [aws_array_eq] and [aws_byte_cursor_eq] of aws-c-common. *)
Definition aws_array_eq (m : memory) (array_a : pointer) (len_a : Z)
                        (array_b : pointer) (len_b : Z) : bool :=
  if negb (len_a =? len_b) then false
  else if len_a =? 0 then true
  else memcmp_eq m array_a array_b len_a.

Definition aws_byte_cursor_eq (m : memory) (a b : aws_byte_cursor) : bool :=
  aws_array_eq m (ptr a) (len a) (ptr b) (len b).

(** [aws_ecc_curve_name_from_oid (oid, curve_name)]: the result and the value
    of [*curve_name] after the call. *)
Definition aws_ecc_curve_name_from_oid (m : memory) (oid : aws_byte_cursor)
                                       (curve_name : Z) : aws_op * Z :=
  if aws_byte_cursor_eq m oid s_ecc_p256_oid then
    (AWS_OP_SUCCESS, AWS_CAL_ECDSA_P256)
  else if aws_byte_cursor_eq m oid s_ecc_p384_oid then
    (AWS_OP_SUCCESS, AWS_CAL_ECDSA_P384)
  else
    (aws_raise_error AWS_ERROR_CAL_UNKNOWN_OBJECT_IDENTIFIER, curve_name).

(** An array read [a[i]]: [None] when [i] is outside the array. *)
Definition array_get {A : Type} (a : list A) (i : Z) : option A :=
  if i <? 0 then None else nth_error a (Z.to_nat i).

(** What a call can do besides returning: read a table outside its bounds. *)
Inductive checked (A : Type) : Type :=
| Returns (a : A)
| OutOfBoundsRead.
Arguments Returns {A} a.
Arguments OutOfBoundsRead {A}.

(** [aws_ecc_oid_from_curve_name (curve_name, oid)]: the result and the value
    of [*oid] after the call. *)
Definition aws_ecc_oid_from_curve_name (curve_name : Z) (oid : aws_byte_cursor)
  : checked (aws_op * aws_byte_cursor) :=
  if (curve_name <? AWS_CAL_ECDSA_P256) || (curve_name >? AWS_CAL_ECDSA_P384)
  then Returns (aws_raise_error AWS_ERROR_CAL_UNSUPPORTED_ALGORITHM, oid)
  else match array_get s_ecc_curve_oids curve_name with
       | Some entry => Returns (AWS_OP_SUCCESS, entry)
       | None => OutOfBoundsRead
       end.

Definition aws_ecc_key_coordinate_byte_size_from_curve_name (curve_name : Z)
  : Z :=
  if curve_name =? AWS_CAL_ECDSA_P256 then 32
  else if curve_name =? AWS_CAL_ECDSA_P384 then 48
  else 0.

(* ===================================================================== *)
(** ** The DER tokenizer, as ecc.c uses it *)
(* ===================================================================== *)

Module Der.

(** Modelled from the spec: [enum aws_der_type] of aws/cal/private/der.h,
    the type of a token.  ecc.c names three of its members; they stand for
    the DER universal tags of a BIT STRING, an OCTET STRING and an OBJECT
    IDENTIFIER. *)
Definition AWS_DER_BIT_STRING : Z := 0x03.
Definition AWS_DER_OCTET_STRING : Z := 0x04.
Definition AWS_DER_OBJECT_IDENTIFIER : Z := 0x06.

(** Modelled from the spec: the DER tokenizer (aws/cal/private/der.h; its
    implementation is not part of ecc.c).  It supplies a finite, single-pass
    sequence of tokens, each a type and a view of raw bytes in the caller's
    buffer, through [next], [type], [blob] and [string]. *)
Record der_tlv : Type := mk_tlv {
  tag : Z;
  value : aws_byte_cursor;
}.

(** Modelled from the spec: [struct aws_der_decoder], the tokenizer over a
    buffer: what is left of the sequence and the token it stands at. *)
Record aws_der_decoder : Type := mk_decoder {
  pending : list der_tlv;     (* tokens not yet visited *)
  current : option der_tlv;   (* the token [next] stopped at *)
}.

(** A decoder before its first [next]. *)
Definition decoder_over (tokens : list der_tlv) : aws_der_decoder :=
  {| pending := tokens; current := None |}.

(** Modelled from the spec: [aws_der_decoder_next], which moves to the next
    token and tells whether there was one. *)
Definition aws_der_decoder_next (d : aws_der_decoder)
  : bool * aws_der_decoder :=
  match pending d with
  | [] => (false, {| pending := []; current := None |})
  | tlv :: rest => (true, {| pending := rest; current := Some tlv |})
  end.

(** Modelled from the spec: [aws_der_decoder_tlv_type], the type of the
    current token. *)
Definition aws_der_decoder_tlv_type (d : aws_der_decoder) : Z :=
  match current d with
  | Some tlv => tag tlv
  | None => 0
  end.

(** Modelled from the spec: [aws_der_decoder_tlv_blob (decoder, blob)], the
    value of [*blob] after the call: the raw bytes of the current token. *)
Definition aws_der_decoder_tlv_blob (d : aws_der_decoder)
                                    (blob : aws_byte_cursor)
  : aws_byte_cursor :=
  match current d with
  | Some tlv => value tlv
  | None => blob
  end.

(** Modelled from the spec: [aws_der_decoder_tlv_string (decoder, string)],
    the value of [*string] after the call: the raw bytes of the current token
    when it is a BIT_STRING or an OCTET_STRING, [*string] untouched
    otherwise. *)
Definition aws_der_decoder_tlv_string (d : aws_der_decoder)
                                      (string : aws_byte_cursor)
  : aws_byte_cursor :=
  match current d with
  | Some tlv =>
      if (tag tlv =? AWS_DER_OCTET_STRING) || (tag tlv =? AWS_DER_BIT_STRING)
      then value tlv
      else string
  | None => string
  end.

End Der.
Export Der.

(* ===================================================================== *)
(** ** Key-material decoder (ecc.c, lines 132-221) *)
(* ===================================================================== *)

(** The four output parameters of [aws_der_decoder_load_ecc_key_pair]. *)
Record outputs : Type := mk_outputs {
  out_public_x_coor : aws_byte_cursor;
  out_public_y_coor : aws_byte_cursor;
  out_private_d : aws_byte_cursor;
  out_curve_name : Z;
}.

(** [current_part], [private_key] and [public_key] point at one of the two
    local cursors. *)
Inductive part_ref : Type :=
| ref_pair_part_1
| ref_pair_part_2.

(** The local variables the token loop reads and writes, with
    [*out_curve_name]. *)
Record locals : Type := mk_locals {
  pair_part_1 : aws_byte_cursor;
  pair_part_2 : aws_byte_cursor;
  curve_name_recognized : bool;
  current_part : part_ref;
  curve_name_out : Z;
}.

(** [*r] and [*r = c] for a [part_ref]. *)
Definition deref (l : locals) (r : part_ref) : aws_byte_cursor :=
  match r with
  | ref_pair_part_1 => pair_part_1 l
  | ref_pair_part_2 => pair_part_2 l
  end.

Definition assign (l : locals) (r : part_ref) (c : aws_byte_cursor) : locals :=
  match r with
  | ref_pair_part_1 =>
      {| pair_part_1 := c; pair_part_2 := pair_part_2 l;
         curve_name_recognized := curve_name_recognized l;
         current_part := current_part l; curve_name_out := curve_name_out l |}
  | ref_pair_part_2 =>
      {| pair_part_1 := pair_part_1 l; pair_part_2 := c;
         curve_name_recognized := curve_name_recognized l;
         current_part := current_part l; curve_name_out := curve_name_out l |}
  end.

(** The locals on entry to the loop. *)
Definition initial_locals (curve_name : Z) : locals :=
  {| pair_part_1 := zero_cursor; pair_part_2 := zero_cursor;
     curve_name_recognized := false;
     current_part := ref_pair_part_1;
     curve_name_out := curve_name |}.

(** One turn of the [while] loop, the decoder standing at a token. *)
Definition loop_body (m : memory) (decoder : aws_der_decoder) (l : locals)
  : locals :=
  let type := aws_der_decoder_tlv_type decoder in
  if type =? AWS_DER_OBJECT_IDENTIFIER then
    let oid := zero_cursor in
    let oid := aws_der_decoder_tlv_blob decoder oid in
    let (r, curve_name) :=
      aws_ecc_curve_name_from_oid m oid (curve_name_out l) in
    {| pair_part_1 := pair_part_1 l; pair_part_2 := pair_part_2 l;
       curve_name_recognized :=
         if is_success r then true else curve_name_recognized l;
       current_part := current_part l;
       curve_name_out := curve_name |}
  else if (type =? AWS_DER_BIT_STRING) || (type =? AWS_DER_OCTET_STRING) then
    let l :=
      assign l (current_part l)
             (aws_der_decoder_tlv_string decoder (deref l (current_part l))) in
    {| pair_part_1 := pair_part_1 l; pair_part_2 := pair_part_2 l;
       curve_name_recognized := curve_name_recognized l;
       current_part := ref_pair_part_2;
       curve_name_out := curve_name_out l |}
  else l.

(** [while (aws_der_decoder_next (decoder)) { ... }], by recursion on the
    tokens still pending: each turn has the decoder at the head token, the
    tail pending. *)
Fixpoint token_loop (m : memory) (pending : list der_tlv) (l : locals)
  : locals :=
  match pending with
  | [] => l
  | tlv :: rest =>
      token_loop m rest
        (loop_body m {| pending := rest; current := Some tlv |} l)
  end.

Definition aws_der_decoder_load_ecc_key_pair
    (m : memory) (decoder : aws_der_decoder) (out : outputs)
  : aws_op * outputs :=
  let out_x := zero_cursor in
  let out_y := zero_cursor in
  let out_d := zero_cursor in
  let l := token_loop m (pending decoder) (initial_locals (out_curve_name out)) in
  let out_curve := curve_name_out l in
  if negb (curve_name_recognized l) then
    (aws_raise_error AWS_ERROR_CAL_UNKNOWN_OBJECT_IDENTIFIER,
     mk_outputs out_x out_y out_d out_curve)
  else
    let key_coordinate_size :=
      aws_ecc_key_coordinate_byte_size_from_curve_name out_curve in
    let private_key : option part_ref := None in
    let public_key : option part_ref := None in
    let public_key_blob_size := size_t_wrap (key_coordinate_size * 2 + 1) in
    let '(private_key, public_key) :=
      if is_non_null (ptr (pair_part_1 l)) && negb (len (pair_part_1 l) =? 0)
      then
        if len (pair_part_1 l) =? key_coordinate_size then
          (Some ref_pair_part_1, public_key)
        else if len (pair_part_1 l) =? public_key_blob_size then
          (private_key, Some ref_pair_part_1)
        else (private_key, public_key)
      else (private_key, public_key) in
    let '(private_key, public_key) :=
      if is_non_null (ptr (pair_part_2 l)) && negb (len (pair_part_2 l) =? 0)
      then
        if len (pair_part_2 l) =? key_coordinate_size then
          (Some ref_pair_part_2, public_key)
        else if len (pair_part_2 l) =? public_key_blob_size then
          (private_key, Some ref_pair_part_2)
        else (private_key, public_key)
      else (private_key, public_key) in
    match private_key, public_key with
    | None, None =>
        (aws_raise_error AWS_ERROR_CAL_MISSING_REQUIRED_KEY_COMPONENT,
         mk_outputs out_x out_y out_d out_curve)
    | _, _ =>
        let out_d :=
          match private_key with
          | Some r => deref l r
          | None => out_d
          end in
        match public_key with
        | Some r =>
            let l := assign l r (aws_byte_cursor_advance (deref l r) 1) in
            let out_x := deref l r in
            let out_x := {| len := key_coordinate_size; ptr := ptr out_x |} in
            let out_y :=
              {| len := key_coordinate_size;
                 ptr := ptr_add (ptr (deref l r)) key_coordinate_size |} in
            (AWS_OP_SUCCESS, mk_outputs out_x out_y out_d out_curve)
        | None =>
            (AWS_OP_SUCCESS, mk_outputs out_x out_y out_d out_curve)
        end
    end.

(* ===================================================================== *)
(** ** Key-pair handle (ecc.c, lines 74-107 and 223-233) *)
(* ===================================================================== *)

(** The five entries of [struct aws_ecc_key_pair_vtable]. *)
Inductive vtable_slot : Type :=
| slot_destroy
| slot_derive_pub_key
| slot_sign_message
| slot_verify_signature
| slot_signature_length.

Section KeyPairHandle.

(** Whatever the backend implementations read and write: their private state,
    the key buffers, the signature buffers. *)
Variable World : Type.

(** A [struct aws_ecc_key_pair *]; 0 is the null pointer. *)
Definition key_pair_ptr : Type := Z.

(** Modelled from the spec: [struct aws_ecc_key_pair_vtable] of
    aws/cal/ecc.h, the five required operations of the capability contract,
    with the arguments ecc.c passes them.  An entry is a function pointer:
    [None] when null, otherwise the backend's function, which acts on the
    world. *)
Record aws_ecc_key_pair_vtable : Type := mk_vtable {
  destroy : option (key_pair_ptr -> World -> World);
  derive_pub_key : option (key_pair_ptr -> World -> Z * World);
  sign_message :
    option (key_pair_ptr -> aws_byte_cursor -> Z -> World -> Z * World);
  verify_signature :
    option (key_pair_ptr -> aws_byte_cursor -> aws_byte_cursor -> World
            -> Z * World);
  signature_length : option (key_pair_ptr -> World -> Z * World);
}.

(** Modelled from the spec: [struct aws_ecc_key_pair] of aws/cal/ecc.h, by
    the two fields the functions below read or write themselves: the
    reference count and the bound vtable. *)
Record aws_ecc_key_pair : Type := mk_key_pair {
  ref_count : Z;                       (* struct aws_atomic_var, a size_t *)
  vtable : aws_ecc_key_pair_vtable;
}.

(** The machine: the key-pair structs by address, the backend's world, and
    the list of vtable entries called so far, oldest first. *)
Record machine : Type := mk_machine {
  heap : key_pair_ptr -> aws_ecc_key_pair;
  world : World;
  calls : list vtable_slot;
}.

(** A call either completes with a value and a machine, or the process is
    terminated by a failed [AWS_FATAL_ASSERT]. *)
Inductive outcome (A : Type) : Type :=
| Completes (a : A) (s : machine)
| Aborts.
Arguments Completes {A} a s.
Arguments Aborts {A}.

Definition M (A : Type) : Type := machine -> outcome A.

Definition ret {A : Type} (a : A) : M A := fun s => Completes a s.

Definition bind {A B : Type} (c : M A) (k : A -> M B) : M B :=
  fun s =>
    match c s with
    | Completes a s' => k a s'
    | Aborts => Aborts
    end.

Local Notation "x <- c ;; k" := (bind c (fun x => k))
  (at level 61, c at next level, right associativity).
Local Notation "c ;;; k" := (bind c (fun _ => k))
  (at level 61, right associativity).

(** The failing branch of [AWS_FATAL_ASSERT]. *)
Definition fatal_assert_failed {A : Type} : M A := fun _ => Aborts.

(** A call through a vtable entry: the backend's function runs on the world,
    and the call is recorded. *)
Definition invoke {A : Type} (slot : vtable_slot) (f : World -> A * World)
  : M A :=
  fun s =>
    let (a, w) := f (world s) in
    Completes a {| heap := heap s; world := w; calls := calls s ++ [slot] |}.

(** [key_pair->vtable]. *)
Definition load_vtable (key_pair : key_pair_ptr) : M aws_ecc_key_pair_vtable :=
  fun s => Completes (vtable (heap s key_pair)) s.

(** [aws_atomic_fetch_add (&key_pair->ref_count, n)] and
    [aws_atomic_fetch_sub]: one indivisible step that stores the new count and
    returns the old one. *)
Definition store_ref_count (s : machine) (key_pair : key_pair_ptr) (n : Z)
  : machine :=
  {| heap := fun p =>
               if p =? key_pair
               then {| ref_count := n; vtable := vtable (heap s p) |}
               else heap s p;
     world := world s;
     calls := calls s |}.

Definition aws_atomic_fetch_add (key_pair : key_pair_ptr) (n : Z) : M Z :=
  fun s =>
    let old_value := ref_count (heap s key_pair) in
    Completes old_value
      (store_ref_count s key_pair (size_t_wrap (old_value + n))).

Definition aws_atomic_fetch_sub (key_pair : key_pair_ptr) (n : Z) : M Z :=
  fun s =>
    let old_value := ref_count (heap s key_pair) in
    Completes old_value
      (store_ref_count s key_pair (size_t_wrap (old_value - n))).

Definition s_aws_ecc_key_pair_destroy (key_pair : key_pair_ptr) : M unit :=
  if negb (key_pair =? 0) then
    vt <- load_vtable key_pair ;;
    match destroy vt with
    | None => fatal_assert_failed
    | Some f => invoke slot_destroy (fun w => (tt, f key_pair w))
    end
  else ret tt.

Definition aws_ecc_key_pair_derive_public_key (key_pair : key_pair_ptr)
  : M Z :=
  vt <- load_vtable key_pair ;;
  match derive_pub_key vt with
  | None => fatal_assert_failed
  | Some f => invoke slot_derive_pub_key (f key_pair)
  end.

Definition aws_ecc_key_pair_sign_message
    (key_pair : key_pair_ptr) (message : aws_byte_cursor) (signature : Z)
  : M Z :=
  vt <- load_vtable key_pair ;;
  match sign_message vt with
  | None => fatal_assert_failed
  | Some f => invoke slot_sign_message (f key_pair message signature)
  end.

Definition aws_ecc_key_pair_verify_signature
    (key_pair : key_pair_ptr) (message signature : aws_byte_cursor)
  : M Z :=
  vt <- load_vtable key_pair ;;
  match verify_signature vt with
  | None => fatal_assert_failed
  | Some f => invoke slot_verify_signature (f key_pair message signature)
  end.

Definition aws_ecc_key_pair_signature_length (key_pair : key_pair_ptr)
  : M Z :=
  vt <- load_vtable key_pair ;;
  match signature_length vt with
  | None => fatal_assert_failed
  | Some f => invoke slot_signature_length (f key_pair)
  end.

Definition aws_ecc_key_pair_acquire (key_pair : key_pair_ptr) : M unit :=
  aws_atomic_fetch_add key_pair 1 ;;;
  ret tt.

Definition aws_ecc_key_pair_release (key_pair : key_pair_ptr) : M unit :=
  old_value <- aws_atomic_fetch_sub key_pair 1 ;;
  if old_value =? 1 then s_aws_ecc_key_pair_destroy key_pair
  else ret tt.

(** [n] times: an acquire, then the release that pairs with it. *)
Fixpoint paired_acquire_release (n : nat) (key_pair : key_pair_ptr) : M unit :=
  match n with
  | O => ret tt
  | S n' =>
      aws_ecc_key_pair_acquire key_pair ;;;
      aws_ecc_key_pair_release key_pair ;;;
      paired_acquire_release n' key_pair
  end.

(** A schedule of the indivisible steps of several owners of one handle: each
    step is one owner's acquire or release. *)
Inductive handle_op : Type :=
| op_acquire
| op_release.

Definition run_op (key_pair : key_pair_ptr) (op : handle_op) : M unit :=
  match op with
  | op_acquire => aws_ecc_key_pair_acquire key_pair
  | op_release => aws_ecc_key_pair_release key_pair
  end.

Fixpoint run_schedule (key_pair : key_pair_ptr) (ops : list handle_op)
  : M unit :=
  match ops with
  | [] => ret tt
  | op :: rest => run_op key_pair op ;;; run_schedule key_pair rest
  end.

(** A schedule in which every release pairs with an earlier acquire that no
    other release has taken, [outstanding] counting the acquires not yet
    released, and in which the count, [1 + outstanding], stays within
    [size_t]. *)
Fixpoint well_paired (outstanding : Z) (ops : list handle_op) : bool :=
  match ops with
  | [] => true
  | op_acquire :: rest =>
      (1 + outstanding <? SIZE_MAX) && well_paired (outstanding + 1) rest
  | op_release :: rest =>
      (0 <? outstanding) && well_paired (outstanding - 1) rest
  end.

(** Acquires minus releases. *)
Fixpoint balance (ops : list handle_op) : Z :=
  match ops with
  | [] => 0
  | op_acquire :: rest => 1 + balance rest
  | op_release :: rest => balance rest - 1
  end.

End KeyPairHandle.

Arguments Completes {World A} a s.
Arguments Aborts {World A}.
Arguments mk_machine {World} heap world calls.
Arguments mk_key_pair {World} ref_count vtable.
Arguments mk_vtable {World}.
Arguments heap {World} m _.
Arguments world {World} m.
Arguments calls {World} m.
Arguments ref_count {World} a.
Arguments vtable {World} a.
Arguments destroy {World} a.
Arguments derive_pub_key {World} a.
Arguments sign_message {World} a.
Arguments verify_signature {World} a.
Arguments signature_length {World} a.
Arguments store_ref_count {World} s key_pair n.
Arguments s_aws_ecc_key_pair_destroy {World} key_pair _.
Arguments aws_ecc_key_pair_derive_public_key {World} key_pair _.
Arguments aws_ecc_key_pair_sign_message {World} key_pair message signature _.
Arguments aws_ecc_key_pair_verify_signature {World} key_pair message signature _.
Arguments aws_ecc_key_pair_signature_length {World} key_pair _.
Arguments aws_ecc_key_pair_acquire {World} key_pair _.
Arguments aws_ecc_key_pair_release {World} key_pair _.
Arguments paired_acquire_release {World} n key_pair _.
Arguments run_op {World} key_pair op _.
Arguments run_schedule {World} key_pair ops _.

(* ===================================================================== *)
(** ** Words used to state the properties *)
(* ===================================================================== *)

(** The tokens the loop stores in a slot. *)
Definition is_key_string (t : der_tlv) : bool :=
  (tag t =? AWS_DER_BIT_STRING) || (tag t =? AWS_DER_OCTET_STRING).

(** The views of the BIT_STRING and OCTET_STRING tokens of a stream, in
    order. *)
Definition key_strings (tokens : list der_tlv) : list aws_byte_cursor :=
  map value (filter is_key_string tokens).

Definition bytes_eq_dec : forall a b : list Z, {a = b} + {a <> b} :=
  list_eq_dec Z.eq_dec.

(** The curve an OBJECT_IDENTIFIER token names, read from its bytes. *)
Definition curve_of_bytes (bytes : list Z) : option Z :=
  if bytes_eq_dec bytes s_p256_oid then Some AWS_CAL_ECDSA_P256
  else if bytes_eq_dec bytes s_p384_oid then Some AWS_CAL_ECDSA_P384
  else None.

Definition curve_of_token (m : memory) (t : der_tlv) : option Z :=
  if tag t =? AWS_DER_OBJECT_IDENTIFIER
  then curve_of_bytes (cursor_bytes m (value t))
  else None.

(** The curves named along a stream, in order. *)
Fixpoint recognized_curves (m : memory) (tokens : list der_tlv) : list Z :=
  match tokens with
  | [] => []
  | t :: rest =>
      match curve_of_token m t with
      | Some c => c :: recognized_curves m rest
      | None => recognized_curves m rest
      end
  end.

(** A slot the classification takes for a private scalar, or for a public
    blob, of a curve whose coordinates have [size] bytes. *)
Definition private_sized (size : Z) (c : aws_byte_cursor) : Prop :=
  ptr c <> NULL /\ len c = size.

Definition public_sized (size : Z) (c : aws_byte_cursor) : Prop :=
  ptr c <> NULL /\ len c = 2 * size + 1.

(** The slots and flags when the token loop of a call ends. *)
Definition locals_after (m : memory) (decoder : aws_der_decoder)
                        (out : outputs) : locals :=
  token_loop m (pending decoder) (initial_locals (out_curve_name out)).

(** What a machine shows of one key pair and of the backend, the count
    apart. *)
Definition same_but_count {World : Type} (s s' : machine World)
                          (key_pair : key_pair_ptr) : Prop :=
  vtable (heap s' key_pair) = vtable (heap s key_pair)
  /\ world s' = world s
  /\ calls s' = calls s.

(** The classification tests of the function, as booleans: a non-null slot
    of the coordinate size, a non-null slot of the public blob size. *)
Definition takes_private (size : Z) (c : aws_byte_cursor) : bool :=
  is_non_null (ptr c) && (len c =? size).

Definition takes_public (size : Z) (c : aws_byte_cursor) : bool :=
  is_non_null (ptr c) && (len c =? 2 * size + 1).

(** The slot each role ends with: the second slot when it passes the test,
    else the first when that one does. *)
Definition chosen (test : aws_byte_cursor -> bool) (l : locals)
  : option aws_byte_cursor :=
  if test (pair_part_2 l) then Some (pair_part_2 l)
  else if test (pair_part_1 l) then Some (pair_part_1 l)
  else None.

(** The tokens the loop does not skip. *)
Definition is_oid (t : der_tlv) : bool :=
  tag t =? AWS_DER_OBJECT_IDENTIFIER.

Definition is_looked_at (t : der_tlv) : bool :=
  is_oid t || is_key_string t.

(** The half-open range of buffer offsets a view covers, and containment of
    one view in another. *)
Definition within (inner outer : aws_byte_cursor) : Prop :=
  exists (base : object) (off_in off_out : Z),
    (ptr inner = Ptr base off_in) /\ (ptr outer = Ptr base off_out) /\
    (off_out <= off_in) /\ (off_in + len inner <= off_out + len outer).

(* ===================================================================== *)
(** ** Sample inputs *)
(* ===================================================================== *)

(** A view of [n] bytes of the caller's buffer, from offset [off]. *)
Definition view (off n : Z) : aws_byte_cursor :=
  {| len := n; ptr := Ptr obj_buffer off |}.

Definition sample_outputs (curve_name : Z) : outputs :=
  {| out_public_x_coor := view 1000 7; out_public_y_coor := view 2000 7;
     out_private_d := view 3000 7; out_curve_name := curve_name |}.

(** A P-256 buffer: the curve OID at 0, a 32-byte scalar at 8, an
    uncompressed point at 40 (format byte 0x04, X, Y), and a second 32-byte
    scalar at 105. *)
Definition p256_memory : memory :=
  s_p256_oid ++ repeat 0xAA 32%nat
             ++ [0x04] ++ repeat 0x11 32%nat ++ repeat 0x22 32%nat
             ++ repeat 0xBB 32%nat.

Definition tok_p256_oid : der_tlv :=
  {| tag := AWS_DER_OBJECT_IDENTIFIER; value := view 0 8 |}.
Definition tok_scalar_a : der_tlv :=
  {| tag := AWS_DER_OCTET_STRING; value := view 8 32 |}.
Definition tok_point : der_tlv :=
  {| tag := AWS_DER_BIT_STRING; value := view 40 65 |}.
Definition tok_scalar_b : der_tlv :=
  {| tag := AWS_DER_OCTET_STRING; value := view 105 32 |}.

(** A P-256 buffer with two 65-byte blobs, the first starting with 0x00
    instead of the format byte 0x04: the OID at 0, the blobs at 8 and 73. *)
Definition two_blob_memory : memory :=
  s_p256_oid ++ [0x00] ++ repeat 0x11 32%nat ++ repeat 0x22 32%nat
             ++ [0x04] ++ repeat 0x33 32%nat ++ repeat 0x44 32%nat.

Definition tok_blob_unformatted : der_tlv :=
  {| tag := AWS_DER_BIT_STRING; value := view 8 65 |}.
Definition tok_blob_second : der_tlv :=
  {| tag := AWS_DER_BIT_STRING; value := view 73 65 |}.

(** A buffer that holds the P-384 OID and nothing else. *)
Definition p384_oid_memory : memory := s_p384_oid.

Definition tok_p384_oid : der_tlv :=
  {| tag := AWS_DER_OBJECT_IDENTIFIER; value := view 0 5 |}.

(** A mock backend whose world is the number of times its [destroy] ran, and
    a backend that provides nothing. *)
Definition counting_vtable : aws_ecc_key_pair_vtable nat :=
  {| destroy := Some (fun _ n => S n);
     derive_pub_key := Some (fun _ n => (0, n));
     sign_message := Some (fun _ _ _ n => (0, n));
     verify_signature := Some (fun _ _ _ n => (0, n));
     signature_length := Some (fun _ n => (72, n)) |}.

Definition empty_vtable : aws_ecc_key_pair_vtable nat :=
  {| destroy := None; derive_pub_key := None; sign_message := None;
     verify_signature := None; signature_length := None |}.

(** A machine whose key pairs all have the given count and vtable. *)
Definition sample_machine (vt : aws_ecc_key_pair_vtable nat) (count : Z)
  : machine nat :=
  {| heap := fun _ => {| ref_count := count; vtable := vt |};
     world := 0%nat;
     calls := [] |}.

(** A P-384 buffer: the curve OID at 0, a 48-byte scalar at 5 and an
    uncompressed point at 53. *)
Definition p384_memory : memory :=
  s_p384_oid ++ repeat 0xCC 48%nat
             ++ [0x04] ++ repeat 0x55 48%nat ++ repeat 0x66 48%nat.

Definition tok_p384_scalar : der_tlv :=
  {| tag := AWS_DER_OCTET_STRING; value := view 5 48 |}.
Definition tok_p384_point : der_tlv :=
  {| tag := AWS_DER_BIT_STRING; value := view 53 97 |}.

(** Tokens of types the loop does not look at: a SEQUENCE and an INTEGER. *)
Definition tok_sequence : der_tlv := {| tag := 0x30; value := view 0 105 |}.
Definition tok_integer : der_tlv := {| tag := 0x02; value := view 8 1 |}.

(* ===================================================================== *)
(** ** Curve registry: proofs *)
(* ===================================================================== *)

Lemma static_p256_bytes (m : memory) :
  cursor_bytes m s_ecc_p256_oid = s_p256_oid.
Proof. reflexivity. Qed.

Lemma static_p384_bytes (m : memory) :
  cursor_bytes m s_ecc_p384_oid = s_p384_oid.
Proof. reflexivity. Qed.

(** [memcmp] compares the two runs of bytes. *)
Lemma memcmp_eq_spec (m : memory) (a b : pointer) (n : Z) :
  memcmp_eq m a b n = true <->
  cursor_bytes m {| len := n; ptr := a |} = cursor_bytes m {| len := n; ptr := b |}.
Proof.
  unfold memcmp_eq, cursor_bytes; simpl.
  induction (seq 0 (Z.to_nat n)) as [|i l IH]; simpl.
  - split; reflexivity.
  - rewrite andb_true_iff, Z.eqb_eq, IH. split.
    + intros [H1 H2]. now rewrite H1, H2.
    + intros H. injection H. auto.
Qed.

Lemma cursor_bytes_length (m : memory) (c : aws_byte_cursor) :
  length (cursor_bytes m c) = Z.to_nat (len c).
Proof. unfold cursor_bytes. now rewrite length_map, length_seq. Qed.

(** [aws_byte_cursor_eq] against a cursor of positive length holds exactly
    when the two cursors view equal bytes. *)
Lemma aws_byte_cursor_eq_spec (m : memory) (a b : aws_byte_cursor) :
  0 < len b ->
  aws_byte_cursor_eq m a b = true <-> cursor_bytes m a = cursor_bytes m b.
Proof.
  intros Hb. unfold aws_byte_cursor_eq, aws_array_eq.
  destruct (Z.eqb_spec (len a) (len b)) as [E|E]; simpl.
  - destruct (Z.eqb_spec (len a) 0) as [Z0|_]; [lia|].
    rewrite memcmp_eq_spec. destruct a as [la pa], b as [lb pb]; simpl in *.
    now subst.
  - split; [discriminate|]. intros H. exfalso. apply E.
    apply (f_equal (@length Z)) in H. rewrite !cursor_bytes_length in H. lia.
Qed.

(** [aws_ecc_curve_name_from_oid] is the table lookup [curve_of_bytes]. *)
Lemma curve_name_from_oid_spec (m : memory) (oid : aws_byte_cursor) (cn : Z) :
  aws_ecc_curve_name_from_oid m oid cn =
  match curve_of_bytes (cursor_bytes m oid) with
  | Some c => (AWS_OP_SUCCESS, c)
  | None => (AWS_OP_ERR AWS_ERROR_CAL_UNKNOWN_OBJECT_IDENTIFIER, cn)
  end.
Proof.
  unfold aws_ecc_curve_name_from_oid, curve_of_bytes.
  destruct (bytes_eq_dec (cursor_bytes m oid) s_p256_oid) as [E|E].
  - rewrite <- (static_p256_bytes m) in E.
    apply aws_byte_cursor_eq_spec in E; [|reflexivity]. now rewrite E.
  - destruct (aws_byte_cursor_eq m oid s_ecc_p256_oid) eqn:E1.
    + apply aws_byte_cursor_eq_spec in E1; [|reflexivity]. now elim E.
    + destruct (bytes_eq_dec (cursor_bytes m oid) s_p384_oid) as [F|F].
      * rewrite <- (static_p384_bytes m) in F.
        apply aws_byte_cursor_eq_spec in F; [|reflexivity]. now rewrite F.
      * destruct (aws_byte_cursor_eq m oid s_ecc_p384_oid) eqn:E2; [|reflexivity].
        apply aws_byte_cursor_eq_spec in E2; [|reflexivity]. now elim F.
Qed.

(** C6: for each supported curve name, P256 and P384,
    [aws_ecc_oid_from_curve_name] succeeds, and
    [aws_ecc_curve_name_from_oid] on the OID it stored succeeds and stores the
    curve name the round trip started from. *)
Theorem oid_curve_name_round_trip :
  forall (m : memory) (curve_name : Z) (oid0 : aws_byte_cursor) (name0 : Z),
    curve_name = AWS_CAL_ECDSA_P256 \/ curve_name = AWS_CAL_ECDSA_P384 ->
    exists oid,
      aws_ecc_oid_from_curve_name curve_name oid0
        = Returns (AWS_OP_SUCCESS, oid) /\
      aws_ecc_curve_name_from_oid m oid name0 = (AWS_OP_SUCCESS, curve_name).
Proof.
  intros m curve_name oid0 name0 [-> | ->].
  - exists s_ecc_p256_oid. split; reflexivity.
  - exists s_ecc_p384_oid. split; reflexivity.
Qed.

Lemma oid_curve_name_round_trip_witness :
  exists oid,
    aws_ecc_oid_from_curve_name AWS_CAL_ECDSA_P384 zero_cursor
      = Returns (AWS_OP_SUCCESS, oid) /\
    aws_ecc_curve_name_from_oid [] oid AWS_CAL_ECDSA_P256
      = (AWS_OP_SUCCESS, AWS_CAL_ECDSA_P384).
Proof.
  apply (oid_curve_name_round_trip [] AWS_CAL_ECDSA_P384 zero_cursor
                                   AWS_CAL_ECDSA_P256).
  right. reflexivity.
Defined.

(** C7: a curve name below P256 or above P384 makes
    [aws_ecc_oid_from_curve_name] fail with UNSUPPORTED_ALGORITHM, [*oid]
    untouched; a curve name in the range gets the table's entry; and no curve
    name at all makes the function read [s_ecc_curve_oids] outside its
    bounds. *)
Theorem oid_from_curve_name_bounds :
  forall (curve_name : Z) (oid : aws_byte_cursor),
    (curve_name < AWS_CAL_ECDSA_P256 \/ AWS_CAL_ECDSA_P384 < curve_name ->
     aws_ecc_oid_from_curve_name curve_name oid
       = Returns (AWS_OP_ERR AWS_ERROR_CAL_UNSUPPORTED_ALGORITHM, oid)) /\
    (AWS_CAL_ECDSA_P256 <= curve_name <= AWS_CAL_ECDSA_P384 ->
     exists entry,
       array_get s_ecc_curve_oids curve_name = Some entry /\
       aws_ecc_oid_from_curve_name curve_name oid
         = Returns (AWS_OP_SUCCESS, entry)) /\
    aws_ecc_oid_from_curve_name curve_name oid <> OutOfBoundsRead.
Proof.
  intros curve_name oid. unfold aws_ecc_oid_from_curve_name.
  unfold AWS_CAL_ECDSA_P256, AWS_CAL_ECDSA_P384.
  destruct (Z.ltb_spec curve_name 0) as [L|L]; simpl.
  - repeat split; [ lia | discriminate ].
  - destruct (Z.gtb_spec curve_name 1) as [G|G]; simpl.
    + repeat split; [ lia | discriminate ].
    + assert (curve_name = 0 \/ curve_name = 1) as [-> | ->] by lia.
      * repeat split; [ lia | eexists; split; reflexivity | discriminate ].
      * repeat split; [ lia | eexists; split; reflexivity | discriminate ].
Qed.

Lemma oid_from_curve_name_bounds_witness :
  aws_ecc_oid_from_curve_name 2 zero_cursor
    = Returns (AWS_OP_ERR AWS_ERROR_CAL_UNSUPPORTED_ALGORITHM, zero_cursor) /\
  aws_ecc_oid_from_curve_name (-1) zero_cursor
    = Returns (AWS_OP_ERR AWS_ERROR_CAL_UNSUPPORTED_ALGORITHM, zero_cursor) /\
  (exists entry,
     array_get s_ecc_curve_oids AWS_CAL_ECDSA_P384 = Some entry /\
     aws_ecc_oid_from_curve_name AWS_CAL_ECDSA_P384 zero_cursor
       = Returns (AWS_OP_SUCCESS, entry)).
Proof.
  split; [|split].
  - apply (oid_from_curve_name_bounds 2 zero_cursor). right. reflexivity.
  - apply (oid_from_curve_name_bounds (-1) zero_cursor). left. reflexivity.
  - apply (oid_from_curve_name_bounds AWS_CAL_ECDSA_P384 zero_cursor).
    split; discriminate.
Defined.

(* ===================================================================== *)
(** ** Key-material decoder: the token loop *)
(* ===================================================================== *)

Section TokenLoop.

Variable m : memory.

(** [token_loop] is the [while] loop of the source: it stops when
    [aws_der_decoder_next] says so, and otherwise runs the body on the decoder
    that [aws_der_decoder_next] leaves, and goes on. *)
Lemma token_loop_next (decoder : aws_der_decoder) (l : locals) :
  token_loop m (pending decoder) l
  = (let (more, decoder') := aws_der_decoder_next decoder in
     if more then token_loop m (pending decoder') (loop_body m decoder' l)
     else l).
Proof.
  unfold aws_der_decoder_next. now destruct (pending decoder).
Qed.

(** What one turn of the loop does, by the kind of the token. *)
Lemma loop_body_oid (t : der_tlv) (rest : list der_tlv) (l : locals) :
  tag t = AWS_DER_OBJECT_IDENTIFIER ->
  loop_body m {| pending := rest; current := Some t |} l
  = {| pair_part_1 := pair_part_1 l; pair_part_2 := pair_part_2 l;
       curve_name_recognized :=
         match curve_of_token m t with
         | Some _ => true
         | None => curve_name_recognized l
         end;
       current_part := current_part l;
       curve_name_out :=
         match curve_of_token m t with
         | Some c => c
         | None => curve_name_out l
         end |}.
Proof.
  intros E. unfold loop_body, curve_of_token,
    aws_der_decoder_tlv_type, aws_der_decoder_tlv_blob; simpl.
  rewrite E, Z.eqb_refl, curve_name_from_oid_spec.
  now destruct (curve_of_bytes (cursor_bytes m (value t))).
Qed.

Lemma loop_body_key_string (t : der_tlv) (rest : list der_tlv) (l : locals) :
  is_key_string t = true ->
  loop_body m {| pending := rest; current := Some t |} l
  = {| pair_part_1 :=
         match current_part l with
         | ref_pair_part_1 => value t
         | ref_pair_part_2 => pair_part_1 l
         end;
       pair_part_2 :=
         match current_part l with
         | ref_pair_part_1 => pair_part_2 l
         | ref_pair_part_2 => value t
         end;
       curve_name_recognized := curve_name_recognized l;
       current_part := ref_pair_part_2;
       curve_name_out := curve_name_out l |}.
Proof.
  unfold is_key_string. intros E.
  assert ((tag t =? AWS_DER_OBJECT_IDENTIFIER) = false) as N.
  { apply Z.eqb_neq. intros F. rewrite F in E. discriminate. }
  unfold loop_body, aws_der_decoder_tlv_type, aws_der_decoder_tlv_string; simpl.
  rewrite N, E, (orb_comm (tag t =? AWS_DER_OCTET_STRING)), E.
  now destruct (current_part l).
Qed.

Lemma loop_body_other (t : der_tlv) (rest : list der_tlv) (l : locals) :
  tag t <> AWS_DER_OBJECT_IDENTIFIER ->
  is_key_string t = false ->
  loop_body m {| pending := rest; current := Some t |} l = l.
Proof.
  unfold is_key_string. intros N E. apply Z.eqb_neq in N.
  unfold loop_body, aws_der_decoder_tlv_type; simpl. now rewrite N, E.
Qed.

Lemma oid_is_no_key_string (t : der_tlv) :
  tag t = AWS_DER_OBJECT_IDENTIFIER -> is_key_string t = false.
Proof. unfold is_key_string. now intros ->. Qed.

Lemma curve_of_token_not_oid (t : der_tlv) :
  tag t <> AWS_DER_OBJECT_IDENTIFIER -> curve_of_token m t = None.
Proof. unfold curve_of_token. intros N. apply Z.eqb_neq in N. now rewrite N. Qed.

(** The three kinds of token. *)
Lemma token_kind (t : der_tlv) :
  tag t = AWS_DER_OBJECT_IDENTIFIER
  \/ (tag t <> AWS_DER_OBJECT_IDENTIFIER /\ is_key_string t = true)
  \/ (tag t <> AWS_DER_OBJECT_IDENTIFIER /\ is_key_string t = false).
Proof.
  destruct (Z.eq_dec (tag t) AWS_DER_OBJECT_IDENTIFIER); [now left|right].
  destruct (is_key_string t); [left|right]; now split.
Qed.

(** A turn of the loop looks at the current token only. *)
Lemma loop_body_current (p q : list der_tlv) (cur : option der_tlv) (l : locals) :
  loop_body m {| pending := p; current := cur |} l
  = loop_body m {| pending := q; current := cur |} l.
Proof. reflexivity. Qed.

(** Running the loop over [a ++ b] is running it over [a], then over [b]. *)
Lemma token_loop_app (a b : list der_tlv) (l : locals) :
  token_loop m (a ++ b) l = token_loop m b (token_loop m a l).
Proof.
  revert l. induction a as [|t a IH]; intros l; simpl; [reflexivity|].
  now rewrite <- IH, (loop_body_current (a ++ b) a).
Qed.

Lemma last_cons {A : Type} (a d : A) (l : list A) :
  last (a :: l) d = last l a.
Proof.
  revert a d. induction l as [|b l IH]; intros a d; [reflexivity|].
  change (last (a :: b :: l) d) with (last (b :: l) d).
  now rewrite !IH.
Qed.

(** [*out_curve_name] after the loop: the last curve named in the stream, or
    the caller's value when the stream names none. *)
Lemma loop_curve_name (tokens : list der_tlv) (l : locals) :
  curve_name_out (token_loop m tokens l)
  = last (recognized_curves m tokens) (curve_name_out l).
Proof.
  revert l. induction tokens as [|t tokens IH]; intros l; simpl; [reflexivity|].
  rewrite IH. destruct (token_kind t) as [O | [[N K] | [N K]]].
  - rewrite loop_body_oid by assumption. cbn [curve_name_out].
    destruct (curve_of_token m t); [now rewrite last_cons | reflexivity].
  - rewrite loop_body_key_string, curve_of_token_not_oid by assumption.
    reflexivity.
  - rewrite loop_body_other, curve_of_token_not_oid by assumption.
    reflexivity.
Qed.

(** [curve_name_recognized] after the loop. *)
Lemma loop_recognized (tokens : list der_tlv) (l : locals) :
  curve_name_recognized (token_loop m tokens l)
  = match recognized_curves m tokens with
    | [] => curve_name_recognized l
    | _ :: _ => true
    end.
Proof.
  revert l. induction tokens as [|t tokens IH]; intros l; simpl; [reflexivity|].
  rewrite IH. destruct (token_kind t) as [O | [[N K] | [N K]]].
  - rewrite loop_body_oid by assumption. cbn [curve_name_recognized].
    destruct (curve_of_token m t); [|reflexivity].
    now destruct (recognized_curves m tokens).
  - rewrite loop_body_key_string, curve_of_token_not_oid by assumption.
    reflexivity.
  - rewrite loop_body_other, curve_of_token_not_oid by assumption.
    reflexivity.
Qed.

(** The first slot after the loop. *)
Lemma loop_pair_part_1 (tokens : list der_tlv) (l : locals) :
  pair_part_1 (token_loop m tokens l)
  = match current_part l with
    | ref_pair_part_1 => hd (pair_part_1 l) (key_strings tokens)
    | ref_pair_part_2 => pair_part_1 l
    end.
Proof.
  revert l. induction tokens as [|t tokens IH]; intros l; simpl.
  - now destruct (current_part l).
  - rewrite IH. unfold key_strings; simpl.
    destruct (token_kind t) as [O | [[N K] | [N K]]].
    + rewrite loop_body_oid, (oid_is_no_key_string t) by assumption.
      reflexivity.
    + rewrite loop_body_key_string, K by assumption. simpl.
      now destruct (current_part l).
    + rewrite loop_body_other, K by assumption. reflexivity.
Qed.

(** The second slot after the loop. *)
Lemma loop_pair_part_2 (tokens : list der_tlv) (l : locals) :
  pair_part_2 (token_loop m tokens l)
  = match current_part l with
    | ref_pair_part_1 => last (tl (key_strings tokens)) (pair_part_2 l)
    | ref_pair_part_2 => last (key_strings tokens) (pair_part_2 l)
    end.
Proof.
  revert l. induction tokens as [|t tokens IH]; intros l; simpl.
  - now destruct (current_part l).
  - rewrite IH. unfold key_strings; simpl.
    destruct (token_kind t) as [O | [[N K] | [N K]]].
    + rewrite loop_body_oid, (oid_is_no_key_string t) by assumption.
      reflexivity.
    + rewrite loop_body_key_string, K by assumption.
      cbn [current_part pair_part_2 map tl].
      destruct (current_part l); [reflexivity|]. now rewrite last_cons.
    + rewrite loop_body_other, K by assumption. reflexivity.
Qed.

End TokenLoop.

(* ===================================================================== *)
(** ** Key-material decoder: proofs *)
(* ===================================================================== *)

Lemma ptr_add_add (p : pointer) (a b : Z) :
  ptr_add (ptr_add p a) b = ptr_add p (a + b).
Proof. destruct p; simpl; [reflexivity|]. f_equal. lia. Qed.

Lemma firstn_seq_le (n start length : nat) :
  (n <= length)%nat -> firstn n (seq start length) = seq start n.
Proof.
  revert start length. induction n as [|n IH]; intros start length H.
  - reflexivity.
  - destruct length as [|length]; [lia|]. simpl. f_equal. apply IH. lia.
Qed.

Lemma map_seq_from {A : Type} (f : nat -> A) (k start n : nat) :
  map f (seq (start + k) n) = map (fun i => f (i + k)%nat) (seq start n).
Proof.
  revert start. induction n as [|n IH]; intros start; simpl; [reflexivity|].
  f_equal. apply (IH (S start)).
Qed.

(** A view cut out of a cursor views the matching slice of its bytes. *)
Lemma cursor_bytes_slice (m : memory) (c : aws_byte_cursor) (k n : Z) :
  0 <= k -> 0 <= n -> k + n <= len c ->
  cursor_bytes m {| len := n; ptr := ptr_add (ptr c) k |}
  = firstn (Z.to_nat n) (skipn (Z.to_nat k) (cursor_bytes m c)).
Proof.
  intros Hk Hn Hl. unfold cursor_bytes; simpl.
  rewrite skipn_map, firstn_map, skipn_seq, firstn_seq_le by lia.
  rewrite map_seq_from. apply map_ext. intros i.
  rewrite ptr_add_add. do 2 f_equal. lia.
Qed.

(** A recognized curve is one of the two of the table, so its coordinates
    have 32 or 48 bytes. *)
Lemma recognized_is_supported (m : memory) (tokens : list der_tlv) (l : locals) :
  (curve_name_recognized l = true ->
   curve_name_out l = AWS_CAL_ECDSA_P256 \/ curve_name_out l = AWS_CAL_ECDSA_P384) ->
  curve_name_recognized (token_loop m tokens l) = true ->
  curve_name_out (token_loop m tokens l) = AWS_CAL_ECDSA_P256
  \/ curve_name_out (token_loop m tokens l) = AWS_CAL_ECDSA_P384.
Proof.
  revert l. induction tokens as [|t tokens IH]; intros l Hl; simpl; [exact Hl|].
  apply IH. destruct (token_kind t) as [O | [[N K] | [N K]]].
  - rewrite loop_body_oid by assumption. simpl.
    unfold curve_of_token, curve_of_bytes.
    destruct (tag t =? AWS_DER_OBJECT_IDENTIFIER); [|exact Hl].
    destruct (bytes_eq_dec _ _); [now left|].
    destruct (bytes_eq_dec _ _); [now right|exact Hl].
  - rewrite loop_body_key_string by assumption. exact Hl.
  - rewrite loop_body_other by assumption. exact Hl.
Qed.

Lemma recognized_coordinate_size (m : memory) (decoder : aws_der_decoder)
                                 (out : outputs) :
  let l := locals_after m decoder out in
  let size := aws_ecc_key_coordinate_byte_size_from_curve_name (curve_name_out l) in
  curve_name_recognized l = true -> size = 32 \/ size = 48.
Proof.
  intros l size H.
  destruct (recognized_is_supported m (pending decoder)
              (initial_locals (out_curve_name out))) as [E|E];
    [discriminate | exact H | |]; subst size l; unfold locals_after;
    rewrite E; [now left | now right].
Qed.

(** C1, as amended: the first BIT_STRING or OCTET_STRING token of a stream is
    captured into [pair_part_1] and every later one into [pair_part_2], each
    replacing what [pair_part_2] held.  So when the loop ends [pair_part_1]
    views the first such token and [pair_part_2] the last of the later ones
    (a slot with no token stays zeroed), and a further such token, coming
    after at least one, leaves [pair_part_1] as it was and becomes the new
    [pair_part_2]. *)
Theorem key_string_slots :
  forall (m : memory) (tokens : list der_tlv) (curve_name : Z),
    let l := token_loop m tokens (initial_locals curve_name) in
    pair_part_1 l = hd zero_cursor (key_strings tokens) /\
    pair_part_2 l = last (tl (key_strings tokens)) zero_cursor /\
    forall t : der_tlv,
      is_key_string t = true ->
      key_strings tokens <> [] ->
      let l' := token_loop m (tokens ++ [t]) (initial_locals curve_name) in
      pair_part_1 l' = pair_part_1 l /\ pair_part_2 l' = value t.
Proof.
  intros m tokens curve_name l. subst l.
  rewrite loop_pair_part_1, loop_pair_part_2. simpl.
  split; [reflexivity|]. split; [reflexivity|].
  intros t K NE.
  rewrite loop_pair_part_1, loop_pair_part_2. simpl.
  unfold key_strings. rewrite filter_app, map_app. simpl. rewrite K. simpl.
  fold (key_strings tokens).
  destruct (key_strings tokens) as [|a rest]; [now elim NE|]. simpl.
  split; [reflexivity|]. apply last_last.
Qed.

Lemma key_string_slots_witness :
  let l := token_loop p256_memory [tok_p256_oid; tok_scalar_a; tok_point]
             (initial_locals 0) in
  let l' := token_loop p256_memory
              ([tok_p256_oid; tok_scalar_a; tok_point] ++ [tok_scalar_b])
              (initial_locals 0) in
  pair_part_1 l' = pair_part_1 l /\ pair_part_2 l' = value tok_scalar_b.
Proof.
  intros l l'.
  apply (key_string_slots p256_memory
           [tok_p256_oid; tok_scalar_a; tok_point] 0).
  - reflexivity.
  - discriminate.
Defined.

(** C1, as the claim states it, fails: with two key strings already seen, a
    third one is not ignored.  After the OCTET_STRING at 8 and the BIT_STRING
    at 40, the OCTET_STRING at 105 replaces the BIT_STRING in
    [pair_part_2]. *)
Lemma third_key_string_is_not_ignored :
  ~ (forall (m : memory) (seen : list der_tlv) (t : der_tlv) (curve_name : Z),
       is_key_string t = true ->
       (2 <= length (key_strings seen))%nat ->
       let l := token_loop m seen (initial_locals curve_name) in
       let l' := token_loop m (seen ++ [t]) (initial_locals curve_name) in
       pair_part_1 l' = pair_part_1 l /\ pair_part_2 l' = pair_part_2 l).
Proof.
  intros H.
  destruct (H p256_memory [tok_p256_oid; tok_scalar_a; tok_point]
              tok_scalar_b 0 eq_refl (le_n 2)) as [_ H2].
  vm_compute in H2. discriminate H2.
Qed.

(** The same stream through the whole function: the third key string ends up
    as the private scalar, and the point of the second one is lost. *)
Example third_key_string_decoded :
  aws_der_decoder_load_ecc_key_pair p256_memory
    (decoder_over [tok_p256_oid; tok_scalar_a; tok_point; tok_scalar_b])
    (sample_outputs 7)
  = (AWS_OP_SUCCESS,
     {| out_public_x_coor := zero_cursor; out_public_y_coor := zero_cursor;
        out_private_d := view 105 32;
        out_curve_name := AWS_CAL_ECDSA_P256 |}).
Proof. vm_compute. reflexivity. Qed.

Example first_two_key_strings_decoded :
  aws_der_decoder_load_ecc_key_pair p256_memory
    (decoder_over [tok_p256_oid; tok_scalar_a; tok_point])
    (sample_outputs 7)
  = (AWS_OP_SUCCESS,
     {| out_public_x_coor := view 41 32; out_public_y_coor := view 73 32;
        out_private_d := view 8 32;
        out_curve_name := AWS_CAL_ECDSA_P256 |}).
Proof. vm_compute. reflexivity. Qed.

(** The two ways the function fails, and what it has stored by then. *)
Lemma load_failure (m : memory) (decoder : aws_der_decoder) (out : outputs)
                   (e : aws_cal_errors) (out' : outputs) :
  aws_der_decoder_load_ecc_key_pair m decoder out = (AWS_OP_ERR e, out') ->
  out' = {| out_public_x_coor := zero_cursor;
            out_public_y_coor := zero_cursor;
            out_private_d := zero_cursor;
            out_curve_name := curve_name_out (locals_after m decoder out) |}
  /\ ((e = AWS_ERROR_CAL_UNKNOWN_OBJECT_IDENTIFIER
       /\ curve_name_recognized (locals_after m decoder out) = false)
      \/ (e = AWS_ERROR_CAL_MISSING_REQUIRED_KEY_COMPONENT
          /\ curve_name_recognized (locals_after m decoder out) = true)).
Proof.
  unfold aws_der_decoder_load_ecc_key_pair.
  fold (locals_after m decoder out).
  destruct (curve_name_recognized (locals_after m decoder out)); simpl.
  - repeat match goal with
           | |- context [if ?c then _ else _] => destruct c
           end;
      unfold aws_raise_error; intros H; inversion H; subst; auto.
  - unfold aws_raise_error. intros H. inversion H; subst. auto.
Qed.

(** C3: whenever [aws_der_decoder_load_ecc_key_pair] fails, the error is
    UNKNOWN_OBJECT_IDENTIFIER or MISSING_REQUIRED_KEY_COMPONENT and the three
    output views [*out_public_x_coor], [*out_public_y_coor] and
    [*out_private_d] are zeroed, whatever they held before the call. *)
Theorem failure_leaves_views_zeroed :
  forall (m : memory) (decoder : aws_der_decoder) (out out' : outputs)
         (e : aws_cal_errors),
    aws_der_decoder_load_ecc_key_pair m decoder out = (AWS_OP_ERR e, out') ->
    (e = AWS_ERROR_CAL_UNKNOWN_OBJECT_IDENTIFIER
     \/ e = AWS_ERROR_CAL_MISSING_REQUIRED_KEY_COMPONENT) /\
    out_public_x_coor out' = zero_cursor /\
    out_public_y_coor out' = zero_cursor /\
    out_private_d out' = zero_cursor.
Proof.
  intros m decoder out out' e H.
  destruct (load_failure m decoder out e out' H) as [-> [[-> _] | [-> _]]];
    simpl; auto.
Qed.

Lemma failure_leaves_views_zeroed_witness :
  let call :=
    aws_der_decoder_load_ecc_key_pair p256_memory
      (decoder_over [tok_p256_oid]) (sample_outputs 7) in
  fst call = AWS_OP_ERR AWS_ERROR_CAL_MISSING_REQUIRED_KEY_COMPONENT /\
  out_public_x_coor (sample_outputs 7) <> zero_cursor /\
  out_public_x_coor (snd call) = zero_cursor /\
  out_public_y_coor (snd call) = zero_cursor /\
  out_private_d (snd call) = zero_cursor.
Proof.
  intros call. split; [reflexivity|]. split; [discriminate|].
  apply (failure_leaves_views_zeroed p256_memory (decoder_over [tok_p256_oid])
           (sample_outputs 7) (snd call)
           AWS_ERROR_CAL_MISSING_REQUIRED_KEY_COMPONENT).
  reflexivity.
Defined.

(** A stream in which no OBJECT_IDENTIFIER token carries the bytes of a
    supported curve names no curve. *)
Lemma no_matching_oid (m : memory) (tokens : list der_tlv) :
  (forall t, In t tokens -> tag t = AWS_DER_OBJECT_IDENTIFIER ->
             cursor_bytes m (value t) <> s_p256_oid /\
             cursor_bytes m (value t) <> s_p384_oid) ->
  recognized_curves m tokens = [].
Proof.
  induction tokens as [|t tokens IH]; intros H; simpl; [reflexivity|].
  rewrite IH by (intros u Hu; apply H; now right).
  unfold curve_of_token, curve_of_bytes.
  destruct (Z.eqb_spec (tag t) AWS_DER_OBJECT_IDENTIFIER) as [O|_];
    [|reflexivity].
  destruct (H t (or_introl eq_refl) O) as [N1 N2].
  destruct (bytes_eq_dec _ _); [contradiction|].
  destruct (bytes_eq_dec _ _); [contradiction|reflexivity].
Qed.

(** C5: when no OBJECT_IDENTIFIER token of the stream carries the bytes of a
    supported curve OID, [aws_der_decoder_load_ecc_key_pair] fails with
    UNKNOWN_OBJECT_IDENTIFIER, whatever BIT_STRING and OCTET_STRING tokens the
    stream has: the test comes before the slots are looked at, the views are
    zeroed and [*out_curve_name] is as the caller left it. *)
Theorem no_curve_oid_fails :
  forall (m : memory) (decoder : aws_der_decoder) (out : outputs),
    (forall t, In t (pending decoder) ->
               tag t = AWS_DER_OBJECT_IDENTIFIER ->
               cursor_bytes m (value t) <> s_p256_oid /\
               cursor_bytes m (value t) <> s_p384_oid) ->
    aws_der_decoder_load_ecc_key_pair m decoder out
    = (AWS_OP_ERR AWS_ERROR_CAL_UNKNOWN_OBJECT_IDENTIFIER,
       {| out_public_x_coor := zero_cursor;
          out_public_y_coor := zero_cursor;
          out_private_d := zero_cursor;
          out_curve_name := out_curve_name out |}).
Proof.
  intros m decoder out H. apply no_matching_oid in H.
  unfold aws_der_decoder_load_ecc_key_pair.
  rewrite loop_recognized, loop_curve_name, H. reflexivity.
Qed.

Lemma no_curve_oid_fails_witness :
  aws_der_decoder_load_ecc_key_pair p256_memory
    (decoder_over [tok_p384_oid; tok_scalar_a; tok_point]) (sample_outputs 7)
  = (AWS_OP_ERR AWS_ERROR_CAL_UNKNOWN_OBJECT_IDENTIFIER,
     {| out_public_x_coor := zero_cursor;
        out_public_y_coor := zero_cursor;
        out_private_d := zero_cursor;
        out_curve_name := 7 |}).
Proof.
  apply (no_curve_oid_fails p256_memory
           (decoder_over [tok_p384_oid; tok_scalar_a; tok_point])
           (sample_outputs 7)).
  simpl. intros t [<- | [<- | [<- | []]]] O.
  - split; vm_compute; discriminate.
  - discriminate O.
  - discriminate O.
Defined.

(** C10: when [aws_der_decoder_load_ecc_key_pair] fails with
    MISSING_REQUIRED_KEY_COMPONENT, the stream named at least one supported
    curve and [*out_curve_name] holds the last one it named, not the value
    the caller passed in: the output is written although the call fails. *)
Theorem missing_component_keeps_curve_name :
  forall (m : memory) (decoder : aws_der_decoder) (out out' : outputs),
    aws_der_decoder_load_ecc_key_pair m decoder out
    = (AWS_OP_ERR AWS_ERROR_CAL_MISSING_REQUIRED_KEY_COMPONENT, out') ->
    exists (earlier : list Z) (c : Z),
      recognized_curves m (pending decoder) = earlier ++ [c] /\
      (c = AWS_CAL_ECDSA_P256 \/ c = AWS_CAL_ECDSA_P384) /\
      out_curve_name out' = c.
Proof.
  intros m decoder out out' H.
  destruct (load_failure m decoder out _ out' H) as [-> [[E _] | [_ R]]];
    [discriminate E|].
  destruct (recognized_is_supported m (pending decoder)
              (initial_locals (out_curve_name out))
              ltac:(discriminate) R) as [S|S];
    unfold locals_after in *;
    rewrite loop_recognized in R; rewrite loop_curve_name in S |- *; simpl;
    (destruct (recognized_curves m (pending decoder)) as [|a rest] eqn:L;
     [ discriminate R | ]);
    exists (removelast (a :: rest)), (last (a :: rest) (out_curve_name out));
    (split; [ apply app_removelast_last; discriminate | split; auto ]).
Qed.

Lemma missing_component_keeps_curve_name_witness :
  let call :=
    aws_der_decoder_load_ecc_key_pair p384_oid_memory
      (decoder_over [tok_p384_oid]) (sample_outputs AWS_CAL_ECDSA_P256) in
  fst call = AWS_OP_ERR AWS_ERROR_CAL_MISSING_REQUIRED_KEY_COMPONENT /\
  exists (earlier : list Z) (c : Z),
    recognized_curves p384_oid_memory [tok_p384_oid] = earlier ++ [c] /\
    (c = AWS_CAL_ECDSA_P256 \/ c = AWS_CAL_ECDSA_P384) /\
    out_curve_name (snd call) = c.
Proof.
  intros call. split; [reflexivity|].
  apply (missing_component_keeps_curve_name p384_oid_memory
           (decoder_over [tok_p384_oid]) (sample_outputs AWS_CAL_ECDSA_P256)
           (snd call)).
  reflexivity.
Defined.

Example missing_component_curve_name_changed :
  aws_der_decoder_load_ecc_key_pair p384_oid_memory
    (decoder_over [tok_p384_oid]) (sample_outputs AWS_CAL_ECDSA_P256)
  = (AWS_OP_ERR AWS_ERROR_CAL_MISSING_REQUIRED_KEY_COMPONENT,
     {| out_public_x_coor := zero_cursor;
        out_public_y_coor := zero_cursor;
        out_private_d := zero_cursor;
        out_curve_name := AWS_CAL_ECDSA_P384 |}).
Proof. vm_compute. reflexivity. Qed.

(** The proofs below look at the function after its loop, for any locals the
    loop can leave: the slots are split into length and pointer and the
    coordinate size is 32 or 48. *)
Ltac after_loop m decoder out R :=
  let S := fresh "S" in
  pose proof (recognized_coordinate_size m decoder out R) as S;
  unfold aws_der_decoder_load_ecc_key_pair;
  fold (locals_after m decoder out);
  unfold private_sized, public_sized in *;
  generalize dependent (locals_after m decoder out);
  intros [[l1 p1] [l2 p2] rec cur cn]; simpl; intros.

Ltac by_size S :=
  destruct S as [S | S]; rewrite S in *; subst; try lia; reflexivity.

(** C4: when both slots are taken for the same role, the second slot decides.
    Two slots of the coordinate size: the private view is [pair_part_2] and
    the public views are empty.  Two slots of the public blob size: the
    public views are cut out of [pair_part_2] and the private view is empty.
    In both cases the call succeeds. *)
Theorem same_role_second_slot_wins :
  forall (m : memory) (decoder : aws_der_decoder) (out : outputs),
    let l := locals_after m decoder out in
    let size :=
      aws_ecc_key_coordinate_byte_size_from_curve_name (curve_name_out l) in
    curve_name_recognized l = true ->
    (private_sized size (pair_part_1 l) ->
     private_sized size (pair_part_2 l) ->
     aws_der_decoder_load_ecc_key_pair m decoder out
     = (AWS_OP_SUCCESS,
        {| out_public_x_coor := zero_cursor;
           out_public_y_coor := zero_cursor;
           out_private_d := pair_part_2 l;
           out_curve_name := curve_name_out l |})) /\
    (public_sized size (pair_part_1 l) ->
     public_sized size (pair_part_2 l) ->
     aws_der_decoder_load_ecc_key_pair m decoder out
     = (AWS_OP_SUCCESS,
        {| out_public_x_coor :=
             {| len := size; ptr := ptr_add (ptr (pair_part_2 l)) 1 |};
           out_public_y_coor :=
             {| len := size;
                ptr := ptr_add (ptr_add (ptr (pair_part_2 l)) 1) size |};
           out_private_d := zero_cursor;
           out_curve_name := curve_name_out l |})).
Proof.
  intros m decoder out l size R. subst l size. split.
  - intros H1 H2. revert H1 H2. after_loop m decoder out R.
    destruct H1 as [N1 L1], H2 as [N2 L2]. simpl in *.
    destruct p1; [now elim N1|]. destruct p2; [now elim N2|].
    by_size S.
  - intros H1 H2. revert H1 H2. after_loop m decoder out R.
    destruct H1 as [N1 L1], H2 as [N2 L2]. simpl in *.
    destruct p1; [now elim N1|]. destruct p2; [now elim N2|].
    by_size S.
Qed.

Lemma same_role_second_slot_wins_witness :
  aws_der_decoder_load_ecc_key_pair p256_memory
    (decoder_over [tok_p256_oid; tok_scalar_a; tok_scalar_b]) (sample_outputs 7)
  = (AWS_OP_SUCCESS,
     {| out_public_x_coor := zero_cursor;
        out_public_y_coor := zero_cursor;
        out_private_d := view 105 32;
        out_curve_name := AWS_CAL_ECDSA_P256 |}) /\
  aws_der_decoder_load_ecc_key_pair two_blob_memory
    (decoder_over [tok_p256_oid; tok_blob_unformatted; tok_blob_second])
    (sample_outputs 7)
  = (AWS_OP_SUCCESS,
     {| out_public_x_coor := view 74 32;
        out_public_y_coor := view 106 32;
        out_private_d := zero_cursor;
        out_curve_name := AWS_CAL_ECDSA_P256 |}).
Proof.
  split.
  - apply (same_role_second_slot_wins p256_memory
             (decoder_over [tok_p256_oid; tok_scalar_a; tok_scalar_b])
             (sample_outputs 7) eq_refl);
      (split; [discriminate | reflexivity]).
  - apply (same_role_second_slot_wins two_blob_memory
             (decoder_over [tok_p256_oid; tok_blob_unformatted; tok_blob_second])
             (sample_outputs 7) eq_refl);
      (split; [discriminate | reflexivity]).
Defined.

(** C2, as amended: when a public blob is identified (the second slot when it
    has the public blob size, else the first slot when that one has), the
    function does not look at the first byte of the blob: whatever that byte
    is, the call succeeds, [*out_public_x_coor] views the [size] bytes after
    the first byte and [*out_public_y_coor] the [size] bytes after those. *)
Theorem public_blob_split :
  forall (m : memory) (decoder : aws_der_decoder) (out : outputs)
         (blob : aws_byte_cursor),
    let l := locals_after m decoder out in
    let size :=
      aws_ecc_key_coordinate_byte_size_from_curve_name (curve_name_out l) in
    curve_name_recognized l = true ->
    (public_sized size (pair_part_2 l) /\ blob = pair_part_2 l)
    \/ (public_sized size (pair_part_1 l)
        /\ ~ public_sized size (pair_part_2 l) /\ blob = pair_part_1 l) ->
    exists out' : outputs,
      aws_der_decoder_load_ecc_key_pair m decoder out = (AWS_OP_SUCCESS, out') /\
      out_public_x_coor out'
      = {| len := size; ptr := ptr_add (ptr blob) 1 |} /\
      out_public_y_coor out'
      = {| len := size; ptr := ptr_add (ptr_add (ptr blob) 1) size |} /\
      cursor_bytes m (out_public_x_coor out')
      = firstn (Z.to_nat size) (skipn 1 (cursor_bytes m blob)) /\
      cursor_bytes m (out_public_y_coor out')
      = firstn (Z.to_nat size)
          (skipn (1 + Z.to_nat size) (cursor_bytes m blob)).
Proof.
  intros m decoder out blob l size R H.
  pose proof (recognized_coordinate_size m decoder out R) as S.
  fold l size in S.
  assert (len blob = 2 * size + 1) as L.
  { destruct H as [[[_ L] ->] | [[_ L] [_ ->]]]; exact L. }
  assert (exists out' : outputs,
    aws_der_decoder_load_ecc_key_pair m decoder out = (AWS_OP_SUCCESS, out') /\
    out_public_x_coor out' = {| len := size; ptr := ptr_add (ptr blob) 1 |} /\
    out_public_y_coor out'
    = {| len := size; ptr := ptr_add (ptr_add (ptr blob) 1) size |})
    as (out' & E & X & Y).
  { clear S L. subst l size. revert H. after_loop m decoder out R.
    destruct H as [[[N2 L2] ->] | [[N1 L1] [NP ->]]]; simpl in *.
    - destruct p2; [now elim N2|].
      destruct S as [S | S]; rewrite S in *; subst;
        (destruct (is_non_null p1 && negb (l1 =? 0));
         [ destruct (l1 =? _); [|destruct (l1 =? _)] | ]);
        eexists; (split; [reflexivity|]); split; reflexivity.
    - destruct p1; [now elim N1|].
      assert (l2 <> 2 * aws_ecc_key_coordinate_byte_size_from_curve_name cn + 1
              \/ p2 = NULL) as NP'.
      { destruct p2; [now right|left]. intros F. apply NP. split; [discriminate|exact F]. }
      destruct S as [S | S]; rewrite S in *; subst;
        (destruct NP' as [NP' | ->];
         [ apply Z.eqb_neq in NP'; simpl in NP' |- *;
           try change (size_t_wrap 65) with 65;
           try change (size_t_wrap 97) with 97;
           rewrite NP'
         | simpl ]);
        repeat match goal with
               | |- context [if ?c then _ else _] => destruct c
               end;
        eexists; (split; [reflexivity|]); split; reflexivity. }
  exists out'. rewrite X, Y. repeat split; try assumption.
  - rewrite (cursor_bytes_slice m blob 1 size) by (destruct S; lia).
    reflexivity.
  - rewrite ptr_add_add.
    rewrite (cursor_bytes_slice m blob (1 + size) size) by (destruct S; lia).
    do 2 f_equal. destruct S; lia.
Qed.

Lemma public_blob_split_witness :
  load two_blob_memory (ptr (view 8 65)) = 0x00 /\
  exists out' : outputs,
    aws_der_decoder_load_ecc_key_pair two_blob_memory
      (decoder_over [tok_p256_oid; tok_blob_second; tok_blob_unformatted])
      (sample_outputs 7) = (AWS_OP_SUCCESS, out') /\
    out_public_x_coor out' = view 9 32 /\
    out_public_y_coor out' = view 41 32 /\
    cursor_bytes two_blob_memory (out_public_x_coor out')
    = firstn 32 (skipn 1 (cursor_bytes two_blob_memory (view 8 65))) /\
    cursor_bytes two_blob_memory (out_public_y_coor out')
    = firstn 32 (skipn 33 (cursor_bytes two_blob_memory (view 8 65))).
Proof.
  split; [reflexivity|].
  apply (public_blob_split two_blob_memory
           (decoder_over [tok_p256_oid; tok_blob_second; tok_blob_unformatted])
           (sample_outputs 7) (view 8 65) eq_refl).
  left. split; [split; [discriminate | reflexivity] | reflexivity].
Defined.

(** C2, as the claim states it, fails: nothing checks the first byte of the
    public blob.  With the P-256 OID and one 65-byte BIT_STRING that starts
    with 0x00, the call succeeds and hands out X and Y views; were the format
    byte verified, a successful call with a public X view would always have
    0x04 just before that view. *)
Lemma format_byte_is_not_verified :
  ~ (forall (m : memory) (decoder : aws_der_decoder) (out out' : outputs),
       aws_der_decoder_load_ecc_key_pair m decoder out
       = (AWS_OP_SUCCESS, out') ->
       out_public_x_coor out' <> zero_cursor ->
       load m (ptr_add (ptr (out_public_x_coor out')) (-1)) = 0x04).
Proof.
  intros H.
  specialize (H two_blob_memory
                (decoder_over [tok_p256_oid; tok_blob_unformatted])
                (sample_outputs 7) _ eq_refl).
  vm_compute in H.
  assert (0 = 4) as F by (apply H; discriminate).
  discriminate F.
Qed.

Example unformatted_blob_decoded :
  aws_der_decoder_load_ecc_key_pair two_blob_memory
    (decoder_over [tok_p256_oid; tok_blob_unformatted]) (sample_outputs 7)
  = (AWS_OP_SUCCESS,
     {| out_public_x_coor := view 9 32;
        out_public_y_coor := view 41 32;
        out_private_d := zero_cursor;
        out_curve_name := AWS_CAL_ECDSA_P256 |})
  /\ cursor_bytes two_blob_memory (view 8 1) = [0x00]
  /\ cursor_bytes two_blob_memory (view 9 32) = repeat 0x11 32%nat
  /\ cursor_bytes two_blob_memory (view 41 32) = repeat 0x22 32%nat.
Proof. vm_compute. repeat split; reflexivity. Qed.

(* ===================================================================== *)
(** ** Key-pair handle: proofs *)
(* ===================================================================== *)

Section HandleProofs.

Context {World : Type}.
Implicit Types (s : machine World) (key_pair : key_pair_ptr).

Lemma heap_store_same s key_pair (n : Z) :
  heap (store_ref_count s key_pair n) key_pair
  = {| ref_count := n; vtable := vtable (heap s key_pair) |}.
Proof. simpl. now rewrite Z.eqb_refl. Qed.

Lemma acquire_step s key_pair :
  aws_ecc_key_pair_acquire key_pair s
  = Completes tt
      (store_ref_count s key_pair
         (size_t_wrap (ref_count (heap s key_pair) + 1))).
Proof. reflexivity. Qed.

Lemma release_step_keep s key_pair :
  ref_count (heap s key_pair) <> 1 ->
  aws_ecc_key_pair_release key_pair s
  = Completes tt
      (store_ref_count s key_pair
         (size_t_wrap (ref_count (heap s key_pair) - 1))).
Proof.
  intros N. apply Z.eqb_neq in N.
  unfold aws_ecc_key_pair_release, bind, aws_atomic_fetch_sub.
  now rewrite N.
Qed.

Lemma release_step_destroy s key_pair (d : key_pair_ptr -> World -> World) :
  ref_count (heap s key_pair) = 1 ->
  key_pair <> 0 ->
  destroy (vtable (heap s key_pair)) = Some d ->
  aws_ecc_key_pair_release key_pair s
  = Completes tt
      {| heap := heap (store_ref_count s key_pair 0);
         world := d key_pair (world s);
         calls := calls s ++ [slot_destroy] |}.
Proof.
  intros E N D. apply Z.eqb_neq in N.
  unfold aws_ecc_key_pair_release, bind, aws_atomic_fetch_sub.
  rewrite E. simpl.
  unfold s_aws_ecc_key_pair_destroy, bind, load_vtable. rewrite N. simpl.
  rewrite Z.eqb_refl. simpl. rewrite D. reflexivity.
Qed.

(** [n] acquire/release pairs from count 1 call nothing and end at count 1. *)
Lemma paired_from_one (n : nat) s key_pair :
  ref_count (heap s key_pair) = 1 ->
  exists s',
    paired_acquire_release n key_pair s = Completes tt s'
    /\ ref_count (heap s' key_pair) = 1
    /\ same_but_count s s' key_pair.
Proof.
  revert s. induction n as [|n IH]; intros s E.
  - exists s. repeat split; auto.
  - simpl. unfold bind at 1. rewrite acquire_step.
    unfold bind at 1. rewrite release_step_keep;
      rewrite heap_store_same; simpl; rewrite E; [|discriminate].
    destruct (IH (store_ref_count
                    (store_ref_count s key_pair (size_t_wrap (1 + 1)))
                    key_pair (size_t_wrap (size_t_wrap (1 + 1) - 1))))
      as (s' & R & C & V & W & L).
    { rewrite heap_store_same. reflexivity. }
    exists s'. split; [exact R|]. split; [exact C|].
    repeat split.
    + rewrite V, !heap_store_same. reflexivity.
    + rewrite W. reflexivity.
    + rewrite L. reflexivity.
Qed.

(** A well-paired schedule calls nothing and moves the count by its
    balance. *)
Lemma schedule_calls_nothing (ops : list handle_op) s key_pair
                             (outstanding : Z) :
  0 <= outstanding ->
  1 + outstanding <= SIZE_MAX ->
  ref_count (heap s key_pair) = 1 + outstanding ->
  well_paired outstanding ops = true ->
  exists s',
    run_schedule key_pair ops s = Completes tt s'
    /\ ref_count (heap s' key_pair) = 1 + outstanding + balance ops
    /\ same_but_count s s' key_pair.
Proof.
  revert s outstanding.
  induction ops as [|op ops IH]; intros s outstanding O U E P.
  - exists s. split; [reflexivity|]. split; [cbn [balance]; lia|].
    repeat split.
  - destruct op; cbn [well_paired] in P;
      apply andb_true_iff in P; destruct P as [B P];
      apply Z.ltb_lt in B; cbn [run_schedule run_op balance];
      unfold bind at 1.
    + rewrite acquire_step.
      destruct (IH (store_ref_count s key_pair
                      (size_t_wrap (ref_count (heap s key_pair) + 1)))
                   (outstanding + 1)) as (s' & R & C & V & W & L);
        [ lia | lia | | exact P | ].
      { rewrite heap_store_same, E. cbn [ref_count]. unfold size_t_wrap.
        rewrite Z.mod_small; lia. }
      exists s'. split; [exact R|]. split; [lia|]. repeat split.
      * rewrite V, heap_store_same. reflexivity.
      * rewrite W. reflexivity.
      * rewrite L. reflexivity.
    + rewrite release_step_keep by lia.
      destruct (IH (store_ref_count s key_pair
                      (size_t_wrap (ref_count (heap s key_pair) - 1)))
                   (outstanding - 1)) as (s' & R & C & V & W & L);
        [ lia | lia | | exact P | ].
      { rewrite heap_store_same, E. cbn [ref_count]. unfold size_t_wrap.
        rewrite Z.mod_small; lia. }
      exists s'. split; [exact R|]. split; [lia|]. repeat split.
      * rewrite V, heap_store_same. reflexivity.
      * rewrite W. reflexivity.
      * rewrite L. reflexivity.
Qed.

Lemma release_step_abort s key_pair :
  ref_count (heap s key_pair) = 1 ->
  key_pair <> 0 ->
  destroy (vtable (heap s key_pair)) = None ->
  aws_ecc_key_pair_release key_pair s = Aborts.
Proof.
  intros E N D. apply Z.eqb_neq in N.
  unfold aws_ecc_key_pair_release, bind, aws_atomic_fetch_sub.
  rewrite E. simpl.
  unfold s_aws_ecc_key_pair_destroy, bind, load_vtable. rewrite N. simpl.
  rewrite Z.eqb_refl. simpl. rewrite D. reflexivity.
Qed.

End HandleProofs.

(** C8: a release stores the count less one (modulo the width of [size_t])
    and calls the backend's [destroy] exactly when the count it read was 1:
    then once, on this key pair, and nothing else is called.  So from count 1
    any number of acquire/release pairs, one after the other or interleaved
    in a well-paired schedule, ends at count 1 with no call made, and one
    more release makes exactly one call, to [destroy]. *)
Theorem release_destroys_at_count_one :
  forall (World : Type) (s : machine World) (key_pair : key_pair_ptr)
         (d : key_pair_ptr -> World -> World),
    key_pair <> 0 ->
    destroy (vtable (heap s key_pair)) = Some d ->
    let old_value := ref_count (heap s key_pair) in
    (exists s',
       aws_ecc_key_pair_release key_pair s = Completes tt s' /\
       ref_count (heap s' key_pair) = size_t_wrap (old_value - 1) /\
       calls s' = calls s ++ (if old_value =? 1 then [slot_destroy] else []) /\
       world s' = (if old_value =? 1 then d key_pair (world s) else world s))
    /\
    (old_value = 1 ->
     forall n : nat,
     exists s1 s2,
       paired_acquire_release n key_pair s = Completes tt s1 /\
       ref_count (heap s1 key_pair) = 1 /\
       calls s1 = calls s /\ world s1 = world s /\
       aws_ecc_key_pair_release key_pair s1 = Completes tt s2 /\
       calls s2 = calls s ++ [slot_destroy] /\
       world s2 = d key_pair (world s))
    /\
    (old_value = 1 ->
     forall ops : list handle_op,
       well_paired 0 ops = true -> balance ops = 0 ->
       exists s1 s2,
         run_schedule key_pair ops s = Completes tt s1 /\
         ref_count (heap s1 key_pair) = 1 /\
         calls s1 = calls s /\ world s1 = world s /\
         aws_ecc_key_pair_release key_pair s1 = Completes tt s2 /\
         calls s2 = calls s ++ [slot_destroy] /\
         world s2 = d key_pair (world s)).
Proof.
  intros World s key_pair d N D old_value.
  assert (forall s1 : machine World,
            ref_count (heap s1 key_pair) = 1 ->
            same_but_count s s1 key_pair ->
            exists s2,
              aws_ecc_key_pair_release key_pair s1 = Completes tt s2 /\
              calls s2 = calls s ++ [slot_destroy] /\
              world s2 = d key_pair (world s)) as final.
  { intros s1 C (V & W & L).
    rewrite (release_step_destroy s1 key_pair d C N) by (rewrite V; exact D).
    eexists. split; [reflexivity|]. simpl. now rewrite W, L. }
  split; [|split].
  - destruct (Z.eqb_spec old_value 1) as [E|E].
    + rewrite (release_step_destroy s key_pair d E N D).
      eexists. split; [reflexivity|]. simpl. rewrite Z.eqb_refl. simpl.
      subst old_value. rewrite E. repeat split; reflexivity.
    + rewrite (release_step_keep s key_pair E).
      eexists. split; [reflexivity|]. rewrite heap_store_same. simpl.
      rewrite app_nil_r. repeat split; reflexivity.
  - intros E n.
    destruct (paired_from_one n s key_pair E) as (s1 & R & C & B).
    destruct (final s1 C B) as (s2 & R2 & L2 & W2).
    destruct B as (V & W & L).
    exists s1, s2. repeat split; assumption.
  - intros E ops P B0.
    destruct (schedule_calls_nothing ops s key_pair 0) as (s1 & R & C & B);
      [ lia | unfold SIZE_MAX, SIZE_BITS; lia | rewrite Z.add_0_r; exact E
      | exact P | ].
    rewrite B0 in C.
    destruct (final s1 C B) as (s2 & R2 & L2 & W2).
    destruct B as (V & W & L).
    exists s1, s2. repeat split; assumption.
Qed.

Lemma release_destroys_at_count_one_witness :
  let s := sample_machine counting_vtable 1 in
  exists s1 s2,
    run_schedule 16 [op_acquire; op_acquire; op_release; op_acquire;
                     op_release; op_release] s = Completes tt s1 /\
    ref_count (heap s1 16) = 1 /\
    calls s1 = calls s /\ world s1 = world s /\
    aws_ecc_key_pair_release 16 s1 = Completes tt s2 /\
    calls s2 = calls s ++ [slot_destroy] /\
    world s2 = S (world s).
Proof.
  intros s.
  pose proof (release_destroys_at_count_one nat s 16 (fun _ n => S n)
                ltac:(discriminate) eq_refl) as H.
  apply (proj2 (proj2 H) eq_refl); reflexivity.
Defined.

Example release_runs :
  (exists s', aws_ecc_key_pair_release 16 (sample_machine counting_vtable 1)
              = Completes tt s'
              /\ ref_count (heap s' 16) = 0 /\ world s' = 1%nat
              /\ calls s' = [slot_destroy]) /\
  (exists s', aws_ecc_key_pair_release 16 (sample_machine counting_vtable 2)
              = Completes tt s'
              /\ ref_count (heap s' 16) = 1 /\ world s' = 0%nat
              /\ calls s' = []) /\
  (exists s', aws_ecc_key_pair_release 16 (sample_machine counting_vtable 0)
              = Completes tt s'
              /\ ref_count (heap s' 16) = SIZE_MAX /\ world s' = 0%nat
              /\ calls s' = []).
Proof. repeat split; eexists; repeat split; reflexivity. Qed.

(** C9: each of the five handle operations looks up its entry in the key
    pair's vtable.  When the entry is missing the process is terminated by
    the fatal assertion: the call does not complete, with an error code or
    otherwise (for [destroy] this is the release that finds the count at 1).
    When the entry is present the backend's function is called once with the
    arguments of the handle operation, and its result is the result of the
    handle operation. *)
Theorem missing_vtable_entry_is_fatal :
  forall (World : Type) (s : machine World) (key_pair : key_pair_ptr)
         (message signature : aws_byte_cursor) (signature_buf : Z),
    key_pair <> 0 ->
    let vt := vtable (heap s key_pair) in
    let after (slot : vtable_slot) (w : World) : machine World :=
      {| heap := heap s; world := w; calls := calls s ++ [slot] |} in
    (destroy vt = None -> s_aws_ecc_key_pair_destroy key_pair s = Aborts) /\
    (destroy vt = None -> ref_count (heap s key_pair) = 1 ->
       aws_ecc_key_pair_release key_pair s = Aborts) /\
    (forall f, destroy vt = Some f ->
       s_aws_ecc_key_pair_destroy key_pair s
       = Completes tt (after slot_destroy (f key_pair (world s)))) /\
    (derive_pub_key vt = None ->
       aws_ecc_key_pair_derive_public_key key_pair s = Aborts) /\
    (forall f, derive_pub_key vt = Some f ->
       aws_ecc_key_pair_derive_public_key key_pair s
       = Completes (fst (f key_pair (world s)))
           (after slot_derive_pub_key (snd (f key_pair (world s))))) /\
    (sign_message vt = None ->
       aws_ecc_key_pair_sign_message key_pair message signature_buf s
       = Aborts) /\
    (forall f, sign_message vt = Some f ->
       aws_ecc_key_pair_sign_message key_pair message signature_buf s
       = Completes (fst (f key_pair message signature_buf (world s)))
           (after slot_sign_message
              (snd (f key_pair message signature_buf (world s))))) /\
    (verify_signature vt = None ->
       aws_ecc_key_pair_verify_signature key_pair message signature s
       = Aborts) /\
    (forall f, verify_signature vt = Some f ->
       aws_ecc_key_pair_verify_signature key_pair message signature s
       = Completes (fst (f key_pair message signature (world s)))
           (after slot_verify_signature
              (snd (f key_pair message signature (world s))))) /\
    (signature_length vt = None ->
       aws_ecc_key_pair_signature_length key_pair s = Aborts) /\
    (forall f, signature_length vt = Some f ->
       aws_ecc_key_pair_signature_length key_pair s
       = Completes (fst (f key_pair (world s)))
           (after slot_signature_length (snd (f key_pair (world s))))).
Proof.
  intros World s key_pair message signature signature_buf N vt after.
  assert (destroy vt = None -> ref_count (heap s key_pair) = 1 ->
          aws_ecc_key_pair_release key_pair s = Aborts) as R.
  { intros D E. now apply release_step_abort. }
  revert R. apply Z.eqb_neq in N.
  unfold s_aws_ecc_key_pair_destroy, aws_ecc_key_pair_derive_public_key,
    aws_ecc_key_pair_sign_message, aws_ecc_key_pair_verify_signature,
    aws_ecc_key_pair_signature_length, bind, load_vtable, invoke,
    fatal_assert_failed.
  rewrite N. simpl. fold vt. intros R.
  split; [|split; [exact R|clear R]];
  repeat split; intros; subst after;
    match goal with
    | H : _ = None |- _ => rewrite H; reflexivity
    | H : _ = Some ?f |- _ =>
        rewrite H;
        try match goal with
            | |- context [let (_, _) := ?c in _] => destruct c
            end;
        reflexivity
    end.
Qed.

Lemma missing_vtable_entry_is_fatal_witness :
  s_aws_ecc_key_pair_destroy 16 (sample_machine empty_vtable 1) = Aborts /\
  aws_ecc_key_pair_sign_message 16 (view 0 8) 4096
    (sample_machine empty_vtable 1) = Aborts /\
  aws_ecc_key_pair_release 16 (sample_machine empty_vtable 1) = Aborts /\
  aws_ecc_key_pair_signature_length 16 (sample_machine counting_vtable 1)
  = Completes 72
      {| heap := heap (sample_machine counting_vtable 1);
         world := 0%nat;
         calls := [slot_signature_length] |}.
Proof.
  pose proof (missing_vtable_entry_is_fatal nat (sample_machine empty_vtable 1)
                16 (view 0 8) (view 8 64) 4096 ltac:(discriminate)) as E.
  pose proof (missing_vtable_entry_is_fatal nat
                (sample_machine counting_vtable 1)
                16 (view 0 8) (view 8 64) 4096 ltac:(discriminate)) as C.
  split; [|split; [|split]].
  - apply (proj1 E). reflexivity.
  - apply (proj1 (proj2 (proj2 (proj2 (proj2 (proj2 E)))))). reflexivity.
  - apply (proj1 (proj2 E)); reflexivity.
  - apply (proj2 (proj2 (proj2 (proj2 (proj2 (proj2 (proj2 (proj2 (proj2
             (proj2 C)))))))))) with (f := fun _ n => (72, n)).
    reflexivity.
Defined.

Example release_without_destroy_aborts :
  aws_ecc_key_pair_release 16 (sample_machine empty_vtable 1) = Aborts
  /\ (exists s', aws_ecc_key_pair_release 16 (sample_machine empty_vtable 2)
                 = Completes tt s').
Proof. split; [reflexivity | eexists; reflexivity]. Qed.

(* ===================================================================== *)
(** ** Curve registry: further properties *)
(* ===================================================================== *)

(** X1: [aws_ecc_curve_name_from_oid] matches whole OIDs only.  It succeeds
    with P256, or with P384, exactly on a cursor whose bytes are those of the
    table entry; on any other cursor, a proper prefix or an extension of an
    OID among them, it fails with UNKNOWN_OBJECT_IDENTIFIER and leaves
    [*curve_name] as it was. *)
Theorem curve_name_from_oid_exact :
  forall (m : memory) (oid : aws_byte_cursor) (curve_name : Z),
    (cursor_bytes m oid = s_p256_oid <->
     aws_ecc_curve_name_from_oid m oid curve_name
     = (AWS_OP_SUCCESS, AWS_CAL_ECDSA_P256)) /\
    (cursor_bytes m oid = s_p384_oid <->
     aws_ecc_curve_name_from_oid m oid curve_name
     = (AWS_OP_SUCCESS, AWS_CAL_ECDSA_P384)) /\
    (cursor_bytes m oid <> s_p256_oid /\ cursor_bytes m oid <> s_p384_oid <->
     aws_ecc_curve_name_from_oid m oid curve_name
     = (AWS_OP_ERR AWS_ERROR_CAL_UNKNOWN_OBJECT_IDENTIFIER, curve_name)) /\
    (len oid <> 8 -> len oid <> 5 ->
     aws_ecc_curve_name_from_oid m oid curve_name
     = (AWS_OP_ERR AWS_ERROR_CAL_UNKNOWN_OBJECT_IDENTIFIER, curve_name)).
Proof.
  intros m oid curve_name. rewrite curve_name_from_oid_spec.
  assert (len oid <> 8 -> len oid <> 5 ->
          cursor_bytes m oid <> s_p256_oid /\ cursor_bytes m oid <> s_p384_oid)
    as by_length.
  { intros L8 L5. split; intros F; apply (f_equal (@length Z)) in F;
      rewrite cursor_bytes_length in F; simpl in F; lia. }
  unfold curve_of_bytes.
  assert (s_p256_oid <> s_p384_oid) as distinct by discriminate.
  destruct (bytes_eq_dec (cursor_bytes m oid) s_p256_oid) as [E|E];
    [|destruct (bytes_eq_dec (cursor_bytes m oid) s_p384_oid) as [F|F]];
    repeat split; intros;
    try reflexivity; try discriminate; try assumption; try congruence;
    try (destruct by_length; [assumption | assumption | congruence]);
    tauto.
Qed.

Lemma curve_name_from_oid_exact_witness :
  aws_ecc_curve_name_from_oid p256_memory (view 0 7) 9
  = (AWS_OP_ERR AWS_ERROR_CAL_UNKNOWN_OBJECT_IDENTIFIER, 9) /\
  aws_ecc_curve_name_from_oid p256_memory (view 0 9) 9
  = (AWS_OP_ERR AWS_ERROR_CAL_UNKNOWN_OBJECT_IDENTIFIER, 9) /\
  aws_ecc_curve_name_from_oid p256_memory (view 0 8) 9
  = (AWS_OP_SUCCESS, AWS_CAL_ECDSA_P256).
Proof.
  split; [|split].
  - apply (curve_name_from_oid_exact p256_memory (view 0 7) 9); discriminate.
  - apply (curve_name_from_oid_exact p256_memory (view 0 9) 9); discriminate.
  - apply (proj1 (curve_name_from_oid_exact p256_memory (view 0 8) 9)).
    reflexivity.
Defined.

(** X2: the round trip the other way.  When [aws_ecc_curve_name_from_oid]
    recognizes a cursor, [aws_ecc_oid_from_curve_name] on the curve name it
    stored succeeds and stores a cursor of the same length over the same
    bytes. *)
Theorem curve_name_oid_round_trip :
  forall (m : memory) (oid oid0 : aws_byte_cursor) (name0 curve_name : Z),
    aws_ecc_curve_name_from_oid m oid name0 = (AWS_OP_SUCCESS, curve_name) ->
    exists entry,
      aws_ecc_oid_from_curve_name curve_name oid0
      = Returns (AWS_OP_SUCCESS, entry) /\
      len entry = len oid /\
      cursor_bytes m entry = cursor_bytes m oid.
Proof.
  intros m oid oid0 name0 curve_name H.
  rewrite curve_name_from_oid_spec in H. unfold curve_of_bytes in H.
  destruct (bytes_eq_dec (cursor_bytes m oid) s_p256_oid) as [E|E].
  - inversion H; subst. exists s_ecc_p256_oid.
    split; [reflexivity|]. split; [|now rewrite E].
    apply (f_equal (@length Z)) in E. rewrite cursor_bytes_length in E.
    change (len s_ecc_p256_oid) with 8. simpl in E. lia.
  - destruct (bytes_eq_dec (cursor_bytes m oid) s_p384_oid) as [F|F];
      [|discriminate H].
    inversion H; subst. exists s_ecc_p384_oid.
    split; [reflexivity|]. split; [|now rewrite F].
    apply (f_equal (@length Z)) in F. rewrite cursor_bytes_length in F.
    change (len s_ecc_p384_oid) with 5. simpl in F. lia.
Qed.

Lemma curve_name_oid_round_trip_witness :
  exists entry,
    aws_ecc_oid_from_curve_name AWS_CAL_ECDSA_P384 zero_cursor
    = Returns (AWS_OP_SUCCESS, entry) /\
    len entry = len (view 0 5) /\
    cursor_bytes p384_memory entry = cursor_bytes p384_memory (view 0 5).
Proof.
  apply (curve_name_oid_round_trip p384_memory (view 0 5) zero_cursor 9
           AWS_CAL_ECDSA_P384).
  reflexivity.
Defined.

(** X3: the coordinate size tells the supported curves apart.
    [aws_ecc_key_coordinate_byte_size_from_curve_name] gives 32 for P256, 48
    for P384 and 0 for every other value, so it is non-zero exactly for the
    curve names on which [aws_ecc_oid_from_curve_name] succeeds. *)
Theorem coordinate_size_of_supported_curves :
  forall (curve_name : Z) (oid : aws_byte_cursor),
    let size := aws_ecc_key_coordinate_byte_size_from_curve_name curve_name in
    (curve_name = AWS_CAL_ECDSA_P256 -> size = 32) /\
    (curve_name = AWS_CAL_ECDSA_P384 -> size = 48) /\
    (curve_name <> AWS_CAL_ECDSA_P256 -> curve_name <> AWS_CAL_ECDSA_P384 ->
     size = 0) /\
    (size <> 0 <->
     exists entry,
       aws_ecc_oid_from_curve_name curve_name oid
       = Returns (AWS_OP_SUCCESS, entry)).
Proof.
  intros curve_name oid size. subst size.
  unfold aws_ecc_key_coordinate_byte_size_from_curve_name,
    aws_ecc_oid_from_curve_name, AWS_CAL_ECDSA_P256, AWS_CAL_ECDSA_P384.
  destruct (Z.eqb_spec curve_name 0) as [-> | N0].
  - repeat split; try discriminate; try lia.
    intros _. eexists. reflexivity.
  - destruct (Z.eqb_spec curve_name 1) as [-> | N1].
    + repeat split; try discriminate; try lia.
      intros _. eexists. reflexivity.
    + repeat split; try lia.
      intros [entry H].
      destruct (Z.ltb_spec curve_name 0); simpl in H; [discriminate H|].
      destruct (Z.gtb_spec curve_name 1); simpl in H; [discriminate H|].
      lia.
Qed.

Lemma coordinate_size_of_supported_curves_witness :
  aws_ecc_key_coordinate_byte_size_from_curve_name AWS_CAL_ECDSA_P384 = 48 /\
  aws_ecc_key_coordinate_byte_size_from_curve_name 2 = 0 /\
  aws_ecc_key_coordinate_byte_size_from_curve_name (-1) = 0.
Proof.
  split; [|split].
  - apply (coordinate_size_of_supported_curves AWS_CAL_ECDSA_P384 zero_cursor).
    reflexivity.
  - apply (coordinate_size_of_supported_curves 2 zero_cursor); discriminate.
  - apply (coordinate_size_of_supported_curves (-1) zero_cursor); discriminate.
Defined.

(* ===================================================================== *)
(** ** Key-material decoder: further properties *)
(* ===================================================================== *)

Lemma takes_private_spec (size : Z) (c : aws_byte_cursor) :
  takes_private size c = true <-> private_sized size c.
Proof.
  unfold takes_private, private_sized.
  rewrite andb_true_iff, Z.eqb_eq.
  destruct (ptr c); simpl; split; intros [A B]; split;
    try assumption; try discriminate; try reflexivity.
  now elim A.
Qed.

Lemma takes_public_spec (size : Z) (c : aws_byte_cursor) :
  takes_public size c = true <-> public_sized size c.
Proof.
  unfold takes_public, public_sized.
  rewrite andb_true_iff, Z.eqb_eq.
  destruct (ptr c); simpl; split; intros [A B]; split;
    try assumption; try discriminate; try reflexivity.
  now elim A.
Qed.

(** The function after a loop that recognized a curve, with the in-place
    advance, the wrap-around and the pointer tests worked out: each role goes
    to the slot [chosen] for it. *)
Lemma load_recognized_form (m : memory) (decoder : aws_der_decoder)
                           (out : outputs) :
  let l := locals_after m decoder out in
  let size :=
    aws_ecc_key_coordinate_byte_size_from_curve_name (curve_name_out l) in
  curve_name_recognized l = true ->
  aws_der_decoder_load_ecc_key_pair m decoder out
  = match chosen (takes_private size) l, chosen (takes_public size) l with
    | None, None =>
        (AWS_OP_ERR AWS_ERROR_CAL_MISSING_REQUIRED_KEY_COMPONENT,
         {| out_public_x_coor := zero_cursor;
            out_public_y_coor := zero_cursor;
            out_private_d := zero_cursor;
            out_curve_name := curve_name_out l |})
    | private_key, public_key =>
        (AWS_OP_SUCCESS,
         {| out_public_x_coor :=
              match public_key with
              | Some b => {| len := size; ptr := ptr_add (ptr b) 1 |}
              | None => zero_cursor
              end;
            out_public_y_coor :=
              match public_key with
              | Some b =>
                  {| len := size; ptr := ptr_add (ptr_add (ptr b) 1) size |}
              | None => zero_cursor
              end;
            out_private_d :=
              match private_key with
              | Some c => c
              | None => zero_cursor
              end;
            out_curve_name := curve_name_out l |})
    end.
Proof.
  intros l size R. subst l size. after_loop m decoder out R.
  unfold chosen, takes_private, takes_public. simpl.
  destruct S as [S | S]; rewrite S;
    try change (size_t_wrap (32 * 2 + 1)) with 65;
    try change (size_t_wrap (48 * 2 + 1)) with 97;
    try change (2 * 32 + 1) with 65;
    try change (2 * 48 + 1) with 97.
  all: subst rec; simpl;
    destruct p1, p2; simpl;
    repeat match goal with
           | |- context [?a =? ?b] => destruct (Z.eqb_spec a b)
           end;
    try lia; subst; reflexivity.
Qed.

(** A call that does not fail with UNKNOWN_OBJECT_IDENTIFIER recognized a
    curve. *)
Lemma load_unrecognized (m : memory) (decoder : aws_der_decoder)
                        (out : outputs) :
  curve_name_recognized (locals_after m decoder out) = false ->
  aws_der_decoder_load_ecc_key_pair m decoder out
  = (AWS_OP_ERR AWS_ERROR_CAL_UNKNOWN_OBJECT_IDENTIFIER,
     {| out_public_x_coor := zero_cursor;
        out_public_y_coor := zero_cursor;
        out_private_d := zero_cursor;
        out_curve_name := curve_name_out (locals_after m decoder out) |}).
Proof.
  intros R. unfold aws_der_decoder_load_ecc_key_pair.
  fold (locals_after m decoder out). now rewrite R.
Qed.

(** The four things the function reads off the locals after the loop, in
    terms of the stream. *)
Lemma locals_after_fields (m : memory) (decoder : aws_der_decoder)
                          (out : outputs) :
  let l := locals_after m decoder out in
  pair_part_1 l = hd zero_cursor (key_strings (pending decoder)) /\
  pair_part_2 l = last (tl (key_strings (pending decoder))) zero_cursor /\
  curve_name_recognized l
  = match recognized_curves m (pending decoder) with
    | [] => false
    | _ :: _ => true
    end /\
  curve_name_out l
  = last (recognized_curves m (pending decoder)) (out_curve_name out).
Proof.
  unfold locals_after.
  rewrite loop_pair_part_1, loop_pair_part_2, loop_recognized,
    loop_curve_name.
  repeat split.
Qed.

(** The function reads the locals after the loop for the two slots, the
    flag and the curve name only, and the memory not at all. *)
Lemma load_same_slots (m1 m2 : memory) (d1 d2 : aws_der_decoder)
                      (out1 out2 : outputs) :
  let l1 := locals_after m1 d1 out1 in
  let l2 := locals_after m2 d2 out2 in
  pair_part_1 l1 = pair_part_1 l2 ->
  pair_part_2 l1 = pair_part_2 l2 ->
  curve_name_recognized l1 = curve_name_recognized l2 ->
  curve_name_out l1 = curve_name_out l2 ->
  aws_der_decoder_load_ecc_key_pair m1 d1 out1
  = aws_der_decoder_load_ecc_key_pair m2 d2 out2.
Proof.
  intros l1 l2 P1 P2 R N. subst l1 l2.
  destruct (curve_name_recognized (locals_after m1 d1 out1)) eqn:E.
  - rewrite (load_recognized_form m1 d1 out1 E).
    rewrite (load_recognized_form m2 d2 out2) by (now rewrite <- R).
    unfold chosen. now rewrite P1, P2, N.
  - rewrite (load_unrecognized m1 d1 out1 E).
    rewrite (load_unrecognized m2 d2 out2) by (now rewrite <- R).
    now rewrite N.
Qed.

(** Two streams that name the same curves in the same order and carry the
    same key strings in the same order decode alike. *)
Lemma load_same_material (m1 m2 : memory) (d1 d2 : aws_der_decoder)
                         (out1 out2 : outputs) :
  recognized_curves m1 (pending d1) = recognized_curves m2 (pending d2) ->
  key_strings (pending d1) = key_strings (pending d2) ->
  out_curve_name out1 = out_curve_name out2 ->
  aws_der_decoder_load_ecc_key_pair m1 d1 out1
  = aws_der_decoder_load_ecc_key_pair m2 d2 out2.
Proof.
  intros C K O.
  destruct (locals_after_fields m1 d1 out1) as (P1 & P2 & R & N).
  destruct (locals_after_fields m2 d2 out2) as (Q1 & Q2 & R' & N').
  apply load_same_slots; rewrite ?P1, ?P2, ?R, ?N, ?Q1, ?Q2, ?R', ?N';
    now rewrite ?C, ?K, ?O.
Qed.

Lemma key_strings_looked_at (tokens : list der_tlv) :
  key_strings (filter is_looked_at tokens) = key_strings tokens.
Proof.
  unfold key_strings. f_equal.
  induction tokens as [|t tokens IH]; simpl; [reflexivity|].
  unfold is_looked_at at 1.
  destruct (is_key_string t) eqn:K.
  - rewrite orb_true_r. simpl. now rewrite K, IH.
  - rewrite orb_false_r. destruct (is_oid t); simpl; [now rewrite K|exact IH].
Qed.

Lemma recognized_curves_looked_at (m : memory) (tokens : list der_tlv) :
  recognized_curves m (filter is_looked_at tokens)
  = recognized_curves m tokens.
Proof.
  induction tokens as [|t tokens IH]; simpl; [reflexivity|].
  unfold is_looked_at at 1, is_oid, curve_of_token.
  destruct (tag t =? AWS_DER_OBJECT_IDENTIFIER) eqn:O; simpl.
  - unfold curve_of_token. now rewrite O, IH.
  - destruct (is_key_string t); simpl; [|exact IH].
    unfold curve_of_token. now rewrite O, IH.
Qed.

(** X4: the function reads a stream only for the curves it names and the key
    strings it carries.  Two streams over the same memory that name the same
    supported curves in the same order and carry the same BIT_STRING and
    OCTET_STRING views in the same order give the same result and the same
    outputs, wherever the OBJECT_IDENTIFIER tokens stand among the key
    strings and whatever the three output views held before (the caller's
    curve name being the same). *)
Theorem decoding_reads_curves_and_key_strings :
  forall (m : memory) (d1 d2 : aws_der_decoder) (out1 out2 : outputs),
    recognized_curves m (pending d1) = recognized_curves m (pending d2) ->
    key_strings (pending d1) = key_strings (pending d2) ->
    out_curve_name out1 = out_curve_name out2 ->
    aws_der_decoder_load_ecc_key_pair m d1 out1
    = aws_der_decoder_load_ecc_key_pair m d2 out2.
Proof. intros m. exact (load_same_material m m). Qed.

Lemma decoding_reads_curves_and_key_strings_witness :
  aws_der_decoder_load_ecc_key_pair p256_memory
    (decoder_over [tok_scalar_a; tok_point; tok_p256_oid]) (sample_outputs 7)
  = aws_der_decoder_load_ecc_key_pair p256_memory
      (decoder_over [tok_p256_oid; tok_scalar_a; tok_point])
      {| out_public_x_coor := zero_cursor; out_public_y_coor := zero_cursor;
         out_private_d := zero_cursor; out_curve_name := 7 |}.
Proof.
  apply (decoding_reads_curves_and_key_strings p256_memory
           (decoder_over [tok_scalar_a; tok_point; tok_p256_oid])
           (decoder_over [tok_p256_oid; tok_scalar_a; tok_point]));
    reflexivity.
Defined.

(** X5: tokens that are neither OBJECT_IDENTIFIER nor BIT_STRING nor
    OCTET_STRING are skipped: taking them out of the stream changes neither
    the result nor any output. *)
Theorem other_tokens_are_skipped :
  forall (m : memory) (decoder : aws_der_decoder) (out : outputs),
    aws_der_decoder_load_ecc_key_pair m
      (decoder_over (filter is_looked_at (pending decoder))) out
    = aws_der_decoder_load_ecc_key_pair m decoder out.
Proof.
  intros m decoder out. apply load_same_material; simpl.
  - apply recognized_curves_looked_at.
  - apply key_strings_looked_at.
  - reflexivity.
Qed.

Example other_tokens_skipped_run :
  filter is_looked_at
    [tok_sequence; tok_integer; tok_scalar_a; tok_sequence; tok_p256_oid;
     tok_point]
  = [tok_scalar_a; tok_p256_oid; tok_point]
  /\ aws_der_decoder_load_ecc_key_pair p256_memory
       (decoder_over [tok_sequence; tok_integer; tok_scalar_a; tok_sequence;
                      tok_p256_oid; tok_point]) (sample_outputs 7)
     = (AWS_OP_SUCCESS,
        {| out_public_x_coor := view 41 32; out_public_y_coor := view 73 32;
           out_private_d := view 8 32;
           out_curve_name := AWS_CAL_ECDSA_P256 |}).
Proof. split; vm_compute; reflexivity. Qed.

Lemma last_in {A : Type} (l : list A) (d : A) :
  l <> [] -> In (last l d) l.
Proof.
  induction l as [|a l IH]; intros N; [now elim N|].
  destruct l as [|b l]; [now left|].
  right. apply IH. discriminate.
Qed.

(** A slot that passed a test is one of the two slots, and a non-null slot
    views a key string of the stream. *)
Lemma chosen_spec (test : aws_byte_cursor -> bool) (l : locals)
                  (c : aws_byte_cursor) :
  chosen test l = Some c ->
  test c = true /\ (c = pair_part_1 l \/ c = pair_part_2 l).
Proof.
  unfold chosen. intros H.
  destruct (test (pair_part_2 l)) eqn:T2.
  - inversion H; subst. auto.
  - destruct (test (pair_part_1 l)) eqn:T1; [|discriminate H].
    inversion H; subst. auto.
Qed.

Lemma slot_in_stream (m : memory) (decoder : aws_der_decoder) (out : outputs)
                     (c : aws_byte_cursor) :
  c = pair_part_1 (locals_after m decoder out)
  \/ c = pair_part_2 (locals_after m decoder out) ->
  ptr c <> NULL ->
  In c (key_strings (pending decoder)).
Proof.
  destruct (locals_after_fields m decoder out) as (P1 & P2 & _ & _).
  rewrite P1, P2. intros [-> | ->] N.
  - destruct (key_strings (pending decoder)); [now elim N|now left].
  - destruct (key_strings (pending decoder)) as [|a rest]; [now elim N|].
    simpl in *. right. apply last_in. intros ->. now elim N.
Qed.

Lemma ptr_add_non_null (p : pointer) (n : Z) :
  p <> NULL -> ptr_add p n <> NULL.
Proof. destruct p; [intros N; now elim N|discriminate]. Qed.

(** What a successful call has stored. *)
Lemma load_success_form (m : memory) (decoder : aws_der_decoder)
                        (out out' : outputs) :
  aws_der_decoder_load_ecc_key_pair m decoder out = (AWS_OP_SUCCESS, out') ->
  let l := locals_after m decoder out in
  let size :=
    aws_ecc_key_coordinate_byte_size_from_curve_name (out_curve_name out') in
  (size = 32 \/ size = 48) /\
  out_curve_name out' = curve_name_out l /\
  (chosen (takes_private size) l <> None
   \/ chosen (takes_public size) l <> None) /\
  out_private_d out'
  = match chosen (takes_private size) l with
    | Some c => c
    | None => zero_cursor
    end /\
  out_public_x_coor out'
  = match chosen (takes_public size) l with
    | Some b => {| len := size; ptr := ptr_add (ptr b) 1 |}
    | None => zero_cursor
    end /\
  out_public_y_coor out'
  = match chosen (takes_public size) l with
    | Some b => {| len := size; ptr := ptr_add (ptr_add (ptr b) 1) size |}
    | None => zero_cursor
    end.
Proof.
  intros H l size. subst l size.
  destruct (curve_name_recognized (locals_after m decoder out)) eqn:R;
    [|rewrite (load_unrecognized m decoder out R) in H; discriminate H].
  pose proof (recognized_coordinate_size m decoder out R) as S.
  rewrite (load_recognized_form m decoder out R) in H.
  simpl in S.
  destruct (chosen (takes_private _) (locals_after m decoder out)) eqn:CP;
    destruct (chosen (takes_public _) (locals_after m decoder out)) eqn:CQ;
    inversion H; subst; clear H; simpl; rewrite ?CP, ?CQ;
    repeat split; try exact S; try (left; discriminate);
    try (right; discriminate).
Qed.

(** X6: what a successful call hands out.  The curve name is P256 or P384;
    at least one of the private view and the public views is set; a private
    view that is set is non-null and has exactly the coordinate size of the
    curve; the public views are set together or not at all, and when set
    they are non-null, have the coordinate size each, and Y starts where X
    ends. *)
Theorem success_output_shape :
  forall (m : memory) (decoder : aws_der_decoder) (out out' : outputs),
    aws_der_decoder_load_ecc_key_pair m decoder out = (AWS_OP_SUCCESS, out') ->
    let size :=
      aws_ecc_key_coordinate_byte_size_from_curve_name (out_curve_name out') in
    (out_curve_name out' = AWS_CAL_ECDSA_P256
     \/ out_curve_name out' = AWS_CAL_ECDSA_P384) /\
    (out_private_d out' <> zero_cursor
     \/ out_public_x_coor out' <> zero_cursor) /\
    (out_private_d out' = zero_cursor
     \/ (ptr (out_private_d out') <> NULL /\ len (out_private_d out') = size))
    /\
    ((out_public_x_coor out' = zero_cursor
      /\ out_public_y_coor out' = zero_cursor)
     \/ (ptr (out_public_x_coor out') <> NULL
         /\ len (out_public_x_coor out') = size
         /\ out_public_y_coor out'
            = {| len := size;
                 ptr := ptr_add (ptr (out_public_x_coor out')) size |})).
Proof.
  intros m decoder out out' H size.
  destruct (load_success_form m decoder out out' H)
    as (S & C & Some1 & D & X & Y).
  fold size in S, Some1, D, X, Y.
  split.
  { unfold size, aws_ecc_key_coordinate_byte_size_from_curve_name in S.
    destruct (Z.eqb_spec (out_curve_name out') AWS_CAL_ECDSA_P256);
      [now left|].
    destruct (Z.eqb_spec (out_curve_name out') AWS_CAL_ECDSA_P384);
      [now right|]. destruct S; discriminate. }
  rewrite D, X, Y.
  destruct (chosen (takes_private size) (locals_after m decoder out))
    as [c|] eqn:CP;
    destruct (chosen (takes_public size) (locals_after m decoder out))
      as [b|] eqn:CQ.
  all: try (apply chosen_spec in CP; destruct CP as [TP _];
            apply takes_private_spec in TP; destruct TP as [NP LP]).
  all: try (apply chosen_spec in CQ; destruct CQ as [TQ _];
            apply takes_public_spec in TQ; destruct TQ as [NQ LQ]).
  all: repeat split.
  - left. intros F. apply NP. now rewrite F.
  - right. auto.
  - right. simpl. repeat split. now apply ptr_add_non_null.
  - left. intros F. apply NP. now rewrite F.
  - right. auto.
  - left. auto.
  - right. intros F. apply (ptr_add_non_null (ptr b) 1 NQ).
    now injection F.
  - left. reflexivity.
  - right. simpl. repeat split. now apply ptr_add_non_null.
  - destruct Some1 as [F|F]; now elim F.
  - left. reflexivity.
  - left. auto.
Qed.

Lemma success_output_shape_witness :
  let out' :=
    snd (aws_der_decoder_load_ecc_key_pair p384_memory
           (decoder_over [tok_p384_oid; tok_p384_scalar; tok_p384_point])
           (sample_outputs 7)) in
  out_curve_name out' = AWS_CAL_ECDSA_P256
  \/ out_curve_name out' = AWS_CAL_ECDSA_P384.
Proof.
  intros out'.
  apply (success_output_shape p384_memory
           (decoder_over [tok_p384_oid; tok_p384_scalar; tok_p384_point])
           (sample_outputs 7) out').
  reflexivity.
Defined.

Lemma ptr_add_0 (p : pointer) : ptr_add p 0 = p.
Proof. destruct p; simpl; [reflexivity|]. f_equal. lia. Qed.

(** A cursor's bytes are those of its first [k] bytes followed by those of
    the rest. *)
Lemma cursor_bytes_split (m : memory) (c : aws_byte_cursor) (k : Z) :
  0 <= k <= len c ->
  cursor_bytes m c
  = cursor_bytes m {| len := k; ptr := ptr c |}
    ++ cursor_bytes m {| len := len c - k; ptr := ptr_add (ptr c) k |}.
Proof.
  intros K.
  replace {| len := k; ptr := ptr c |}
    with {| len := k; ptr := ptr_add (ptr c) 0 |}
    by (now rewrite ptr_add_0).
  rewrite (cursor_bytes_slice m c 0 k), (cursor_bytes_slice m c k (len c - k))
    by lia.
  simpl. rewrite (firstn_all2 (n := Z.to_nat (len c - k))).
  - symmetry. apply firstn_skipn.
  - rewrite length_skipn, cursor_bytes_length. lia.
Qed.

Lemma aws_byte_cursor_eq_dec_zero (c : aws_byte_cursor) :
  {c = zero_cursor} + {c <> zero_cursor}.
Proof.
  destruct c as [l [|base off]].
  - destruct (Z.eq_dec l 0) as [-> | N]; [now left|right].
    intros F. apply N. now injection F.
  - right. discriminate.
Qed.

(** Where the public views of a successful call come from. *)
Lemma public_views_origin (m : memory) (decoder : aws_der_decoder)
                          (out out' : outputs) :
  aws_der_decoder_load_ecc_key_pair m decoder out = (AWS_OP_SUCCESS, out') ->
  out_public_x_coor out' <> zero_cursor ->
  let size :=
    aws_ecc_key_coordinate_byte_size_from_curve_name (out_curve_name out') in
  exists blob : aws_byte_cursor,
    In blob (key_strings (pending decoder)) /\
    (size = 32 \/ size = 48) /\
    ptr blob <> NULL /\
    len blob = 2 * size + 1 /\
    out_public_x_coor out' = {| len := size; ptr := ptr_add (ptr blob) 1 |} /\
    out_public_y_coor out'
    = {| len := size; ptr := ptr_add (ptr_add (ptr blob) 1) size |}.
Proof.
  intros H NZ size.
  destruct (load_success_form m decoder out out' H)
    as (S & _ & _ & _ & X & Y).
  fold size in S, X, Y.
  destruct (chosen (takes_public size) (locals_after m decoder out))
    as [b|] eqn:CQ; [|now elim NZ].
  apply chosen_spec in CQ. destruct CQ as [TQ W].
  apply takes_public_spec in TQ. destruct TQ as [NQ LQ].
  exists b. repeat split; try assumption.
  apply (slot_in_stream m decoder out); [tauto | assumption].
Qed.

(** X7: the views a successful call hands out are views of the stream's own
    key strings.  A private view that is set is the view of one of the
    BIT_STRING or OCTET_STRING tokens, unchanged.  Public views that are set
    lie inside one such token of [2 * size + 1] bytes: X covers its bytes 1
    to [size], Y its bytes [size + 1] to [2 * size], so neither view reaches
    outside the token and the two do not overlap. *)
Theorem views_lie_in_key_strings :
  forall (m : memory) (decoder : aws_der_decoder) (out out' : outputs),
    aws_der_decoder_load_ecc_key_pair m decoder out = (AWS_OP_SUCCESS, out') ->
    let size :=
      aws_ecc_key_coordinate_byte_size_from_curve_name (out_curve_name out') in
    (out_private_d out' = zero_cursor
     \/ In (out_private_d out') (key_strings (pending decoder))) /\
    (out_public_x_coor out' = zero_cursor
     \/ exists (blob : aws_byte_cursor) (base : object) (off : Z),
          In blob (key_strings (pending decoder)) /\
          blob = {| len := 2 * size + 1; ptr := Ptr base off |} /\
          out_public_x_coor out'
          = {| len := size; ptr := Ptr base (off + 1) |} /\
          out_public_y_coor out'
          = {| len := size; ptr := Ptr base (off + 1 + size) |} /\
          within (out_public_x_coor out') blob /\
          within (out_public_y_coor out') blob).
Proof.
  intros m decoder out out' H size. split.
  - destruct (load_success_form m decoder out out' H)
      as (_ & _ & _ & D & _ & _).
    fold size in D. rewrite D.
    destruct (chosen (takes_private size) (locals_after m decoder out))
      as [c|] eqn:CP; [right|now left].
    apply chosen_spec in CP. destruct CP as [TP W].
    apply takes_private_spec in TP. destruct TP as [NP _].
    apply (slot_in_stream m decoder out); [tauto | assumption].
  - destruct (aws_byte_cursor_eq_dec_zero (out_public_x_coor out'))
      as [Z0|NZ]; [now left|right].
    destruct (public_views_origin m decoder out out' H NZ)
      as (blob & I & S & N & L & X & Y).
    fold size in S, L, X, Y.
    destruct blob as [bl [|base off]]; cbn [len ptr ptr_add] in *;
      [now elim N|].
    exists {| len := bl; ptr := Ptr base off |}, base, off.
    rewrite X, Y. subst bl.
    repeat split; try assumption.
    + exists base, (off + 1), off. cbn [len ptr].
      repeat split; destruct S; lia.
    + exists base, (off + 1 + size), off. cbn [len ptr].
      repeat split; destruct S; lia.
Qed.

Lemma views_lie_in_key_strings_witness :
  let out' :=
    snd (aws_der_decoder_load_ecc_key_pair p384_memory
           (decoder_over [tok_p384_oid; tok_p384_scalar; tok_p384_point])
           (sample_outputs 7)) in
  out_private_d out' = zero_cursor
  \/ In (out_private_d out') [view 5 48; view 53 97].
Proof.
  intros out'.
  apply (views_lie_in_key_strings p384_memory
           (decoder_over [tok_p384_oid; tok_p384_scalar; tok_p384_point])
           (sample_outputs 7) out').
  reflexivity.
Defined.

(** X8: nothing of a public blob is dropped or handed out twice.  When a
    successful call sets the public views, the bytes of the key string they
    were cut from are its first byte, then the bytes of X, then the bytes of
    Y, and no more. *)
Theorem public_blob_is_format_byte_x_y :
  forall (m : memory) (decoder : aws_der_decoder) (out out' : outputs),
    aws_der_decoder_load_ecc_key_pair m decoder out = (AWS_OP_SUCCESS, out') ->
    out_public_x_coor out' <> zero_cursor ->
    exists blob : aws_byte_cursor,
      In blob (key_strings (pending decoder)) /\
      cursor_bytes m blob
      = load m (ptr blob)
        :: cursor_bytes m (out_public_x_coor out')
        ++ cursor_bytes m (out_public_y_coor out').
Proof.
  intros m decoder out out' H NZ.
  destruct (public_views_origin m decoder out out' H NZ)
    as (blob & I & S & N & L & X & Y).
  exists blob. split; [exact I|]. rewrite X, Y.
  set (size := aws_ecc_key_coordinate_byte_size_from_curve_name
                 (out_curve_name out')) in *.
  rewrite (cursor_bytes_split m blob 1) by (destruct S; lia).
  replace (cursor_bytes m {| len := 1; ptr := ptr blob |})
    with [load m (ptr blob)]
    by (unfold cursor_bytes; simpl; now rewrite ptr_add_0).
  simpl. f_equal.
  rewrite (cursor_bytes_split m
             {| len := len blob - 1; ptr := ptr_add (ptr blob) 1 |} size)
    by (simpl; destruct S; lia).
  simpl. do 3 f_equal. lia.
Qed.

Lemma public_blob_is_format_byte_x_y_witness :
  exists blob : aws_byte_cursor,
    In blob [view 5 48; view 53 97] /\
    cursor_bytes p384_memory blob
    = load p384_memory (ptr blob)
      :: cursor_bytes p384_memory (view 54 48)
      ++ cursor_bytes p384_memory (view 102 48).
Proof.
  apply (public_blob_is_format_byte_x_y p384_memory
           (decoder_over [tok_p384_oid; tok_p384_scalar; tok_p384_point])
           (sample_outputs 7)
           {| out_public_x_coor := view 54 48;
              out_public_y_coor := view 102 48;
              out_private_d := view 5 48;
              out_curve_name := AWS_CAL_ECDSA_P384 |}).
  - reflexivity.
  - discriminate.
Defined.

(** The result code of a call. *)
Lemma load_result_code (m : memory) (decoder : aws_der_decoder)
                       (out : outputs) :
  let l := locals_after m decoder out in
  let size :=
    aws_ecc_key_coordinate_byte_size_from_curve_name (curve_name_out l) in
  fst (aws_der_decoder_load_ecc_key_pair m decoder out)
  = if negb (curve_name_recognized l) then
      AWS_OP_ERR AWS_ERROR_CAL_UNKNOWN_OBJECT_IDENTIFIER
    else if takes_private size (pair_part_1 l)
            || takes_public size (pair_part_1 l)
            || takes_private size (pair_part_2 l)
            || takes_public size (pair_part_2 l)
    then AWS_OP_SUCCESS
    else AWS_OP_ERR AWS_ERROR_CAL_MISSING_REQUIRED_KEY_COMPONENT.
Proof.
  intros l size. subst l size.
  destruct (curve_name_recognized (locals_after m decoder out)) eqn:R.
  - rewrite (load_recognized_form m decoder out R). unfold chosen. simpl.
    destruct (takes_private _ (pair_part_1 _)),
             (takes_public _ (pair_part_1 _)),
             (takes_private _ (pair_part_2 _)),
             (takes_public _ (pair_part_2 _)); reflexivity.
  - now rewrite (load_unrecognized m decoder out R).
Qed.

Lemma recognized_curves_nil (m : memory) (tokens : list der_tlv) :
  recognized_curves m tokens = [] ->
  forall t, In t tokens -> tag t = AWS_DER_OBJECT_IDENTIFIER ->
            cursor_bytes m (value t) <> s_p256_oid /\
            cursor_bytes m (value t) <> s_p384_oid.
Proof.
  induction tokens as [|u tokens IH]; intros E t I O; [now elim I|].
  simpl in E. destruct (curve_of_token m u) eqn:C; [discriminate E|].
  destruct I as [<- | I]; [|now apply IH].
  unfold curve_of_token, curve_of_bytes in C.
  rewrite O, Z.eqb_refl in C.
  destruct (bytes_eq_dec _ s_p256_oid); [discriminate C|].
  destruct (bytes_eq_dec _ s_p384_oid); [discriminate C|].
  now split.
Qed.

(** X9: the call fails with UNKNOWN_OBJECT_IDENTIFIER exactly when no
    OBJECT_IDENTIFIER token of the stream carries the bytes of a supported
    curve OID.  One matching token anywhere in the stream, before or after
    the key strings and among any number of other OIDs, is enough for the
    call not to fail this way. *)
Theorem unknown_oid_exactly_without_curve :
  forall (m : memory) (decoder : aws_der_decoder) (out : outputs),
    fst (aws_der_decoder_load_ecc_key_pair m decoder out)
    = AWS_OP_ERR AWS_ERROR_CAL_UNKNOWN_OBJECT_IDENTIFIER
    <->
    (forall t, In t (pending decoder) ->
               tag t = AWS_DER_OBJECT_IDENTIFIER ->
               cursor_bytes m (value t) <> s_p256_oid /\
               cursor_bytes m (value t) <> s_p384_oid).
Proof.
  intros m decoder out. rewrite load_result_code.
  destruct (locals_after_fields m decoder out) as (_ & _ & R & _).
  rewrite R. split.
  - intros H. apply recognized_curves_nil.
    destruct (recognized_curves m (pending decoder)); [reflexivity|].
    simpl in H. destruct (_ || _); discriminate H.
  - intros H. now rewrite (no_matching_oid m (pending decoder) H).
Qed.

Lemma unknown_oid_exactly_without_curve_witness :
  (exists t, In t [tok_p384_oid; tok_scalar_a; tok_p256_oid]
             /\ tag t = AWS_DER_OBJECT_IDENTIFIER
             /\ cursor_bytes p256_memory (value t) = s_p256_oid) /\
  fst (aws_der_decoder_load_ecc_key_pair p256_memory
         (decoder_over [tok_p384_oid; tok_scalar_a; tok_p256_oid])
         (sample_outputs 7))
  <> AWS_OP_ERR AWS_ERROR_CAL_UNKNOWN_OBJECT_IDENTIFIER.
Proof.
  split.
  - exists tok_p256_oid. repeat split. simpl. auto.
  - intros F.
    apply (proj1 (proj1 (unknown_oid_exactly_without_curve p256_memory
                    (decoder_over [tok_p384_oid; tok_scalar_a; tok_p256_oid])
                    (sample_outputs 7)) F tok_p256_oid
                    (or_intror (or_intror (or_introl eq_refl))) eq_refl)).
    reflexivity.
Defined.

(** X10: the call fails with MISSING_REQUIRED_KEY_COMPONENT exactly when a
    curve was recognized and neither slot is a non-null view of the
    coordinate size or of the public blob size of that curve.  A stream that
    names a curve and has no BIT_STRING or OCTET_STRING token at all is one
    such case. *)
Theorem missing_component_exactly_without_sized_slot :
  forall (m : memory) (decoder : aws_der_decoder) (out : outputs),
    let l := locals_after m decoder out in
    let size :=
      aws_ecc_key_coordinate_byte_size_from_curve_name (curve_name_out l) in
    (fst (aws_der_decoder_load_ecc_key_pair m decoder out)
     = AWS_OP_ERR AWS_ERROR_CAL_MISSING_REQUIRED_KEY_COMPONENT
     <->
     curve_name_recognized l = true
     /\ ~ private_sized size (pair_part_1 l)
     /\ ~ public_sized size (pair_part_1 l)
     /\ ~ private_sized size (pair_part_2 l)
     /\ ~ public_sized size (pair_part_2 l)) /\
    (recognized_curves m (pending decoder) <> [] ->
     key_strings (pending decoder) = [] ->
     fst (aws_der_decoder_load_ecc_key_pair m decoder out)
     = AWS_OP_ERR AWS_ERROR_CAL_MISSING_REQUIRED_KEY_COMPONENT).
Proof.
  intros m decoder out l size.
  assert (fst (aws_der_decoder_load_ecc_key_pair m decoder out)
          = AWS_OP_ERR AWS_ERROR_CAL_MISSING_REQUIRED_KEY_COMPONENT
          <->
          curve_name_recognized l = true
          /\ ~ private_sized size (pair_part_1 l)
          /\ ~ public_sized size (pair_part_1 l)
          /\ ~ private_sized size (pair_part_2 l)
          /\ ~ public_sized size (pair_part_2 l)) as main.
  { rewrite load_result_code. fold l size.
    rewrite <- !takes_private_spec, <- !takes_public_spec.
    destruct (curve_name_recognized l); simpl.
    - destruct (takes_private size (pair_part_1 l)),
               (takes_public size (pair_part_1 l)),
               (takes_private size (pair_part_2 l)),
               (takes_public size (pair_part_2 l)); simpl;
        (split;
         [ intros H; try discriminate H;
           repeat split; first [reflexivity | discriminate]
         | intros (_ & A & B & C & D);
           first [ reflexivity | elim A; reflexivity | elim B; reflexivity
                 | elim C; reflexivity | elim D; reflexivity ] ]).
    - split; [discriminate|]. intros [F _]. discriminate F. }
  split; [exact main|].
  intros C K. apply main.
  destruct (locals_after_fields m decoder out) as (P1 & P2 & R & _).
  fold l in P1, P2, R. rewrite P1, P2, R, K.
  destruct (recognized_curves m (pending decoder)); [now elim C|].
  unfold private_sized, public_sized. simpl.
  repeat split; intros [F _]; now elim F.
Qed.

Lemma missing_component_exactly_without_sized_slot_witness :
  fst (aws_der_decoder_load_ecc_key_pair p256_memory
         (decoder_over [tok_sequence; tok_p256_oid; tok_integer])
         (sample_outputs 7))
  = AWS_OP_ERR AWS_ERROR_CAL_MISSING_REQUIRED_KEY_COMPONENT.
Proof.
  apply (missing_component_exactly_without_sized_slot p256_memory
           (decoder_over [tok_sequence; tok_p256_oid; tok_integer])
           (sample_outputs 7)).
  - discriminate.
  - reflexivity.
Defined.

(** A slot of one size fails the test of the other. *)
Lemma private_sized_tests (size : Z) (c : aws_byte_cursor) :
  size = 32 \/ size = 48 -> private_sized size c ->
  takes_private size c = true /\ takes_public size c = false.
Proof.
  intros S P. split; [now apply takes_private_spec|].
  destruct P as [_ L]. unfold takes_public.
  apply andb_false_iff. right. apply Z.eqb_neq. destruct S; lia.
Qed.

Lemma public_sized_tests (size : Z) (c : aws_byte_cursor) :
  size = 32 \/ size = 48 -> public_sized size c ->
  takes_public size c = true /\ takes_private size c = false.
Proof.
  intros S P. split; [now apply takes_public_spec|].
  destruct P as [_ L]. unfold takes_private.
  apply andb_false_iff. right. apply Z.eqb_neq. destruct S; lia.
Qed.

Lemma zero_cursor_tests (size : Z) :
  takes_private size zero_cursor = false
  /\ takes_public size zero_cursor = false.
Proof. split; reflexivity. Qed.

(** X11: a stream with a recognized curve and exactly one key string.  When
    the key string is non-null and has the coordinate size, the call succeeds
    with that view as the private view and empty public views; when it has
    the public blob size, the call succeeds with X and Y cut from it and an
    empty private view. *)
Theorem single_key_string :
  forall (m : memory) (decoder : aws_der_decoder) (out : outputs)
         (c : aws_byte_cursor),
    let l := locals_after m decoder out in
    let size :=
      aws_ecc_key_coordinate_byte_size_from_curve_name (curve_name_out l) in
    key_strings (pending decoder) = [c] ->
    curve_name_recognized l = true ->
    (private_sized size c ->
     aws_der_decoder_load_ecc_key_pair m decoder out
     = (AWS_OP_SUCCESS,
        {| out_public_x_coor := zero_cursor;
           out_public_y_coor := zero_cursor;
           out_private_d := c;
           out_curve_name := curve_name_out l |})) /\
    (public_sized size c ->
     aws_der_decoder_load_ecc_key_pair m decoder out
     = (AWS_OP_SUCCESS,
        {| out_public_x_coor := {| len := size; ptr := ptr_add (ptr c) 1 |};
           out_public_y_coor :=
             {| len := size; ptr := ptr_add (ptr_add (ptr c) 1) size |};
           out_private_d := zero_cursor;
           out_curve_name := curve_name_out l |})).
Proof.
  intros m decoder out c l size K R.
  pose proof (recognized_coordinate_size m decoder out R) as S.
  fold l size in S.
  destruct (locals_after_fields m decoder out) as (P1 & P2 & _ & _).
  fold l in P1, P2. rewrite K in P1, P2. simpl in P1, P2.
  rewrite (load_recognized_form m decoder out R). fold l size.
  unfold chosen. rewrite P1, P2.
  destruct (zero_cursor_tests size) as [Z1 Z2]. rewrite Z1, Z2.
  split; intros P.
  - destruct (private_sized_tests size c S P) as [T1 T2].
    now rewrite T1, T2.
  - destruct (public_sized_tests size c S P) as [T1 T2].
    now rewrite T1, T2.
Qed.

Lemma single_key_string_witness :
  aws_der_decoder_load_ecc_key_pair p384_memory
    (decoder_over [tok_sequence; tok_p384_oid; tok_p384_scalar])
    (sample_outputs 7)
  = (AWS_OP_SUCCESS,
     {| out_public_x_coor := zero_cursor;
        out_public_y_coor := zero_cursor;
        out_private_d := view 5 48;
        out_curve_name := AWS_CAL_ECDSA_P384 |}).
Proof.
  apply (single_key_string p384_memory
           (decoder_over [tok_sequence; tok_p384_oid; tok_p384_scalar])
           (sample_outputs 7) (view 5 48) eq_refl eq_refl).
  split; [discriminate | reflexivity].
Defined.

(** X12: the order of a private scalar and a public blob does not matter.
    With a recognized curve and exactly two key strings, one non-null of the
    coordinate size and one non-null of the public blob size, the call
    succeeds with the first as private view and X and Y cut from the second,
    whichever of the two comes first in the stream. *)
Theorem key_pair_in_either_order :
  forall (m : memory) (decoder : aws_der_decoder) (out : outputs)
         (scalar blob : aws_byte_cursor),
    let l := locals_after m decoder out in
    let size :=
      aws_ecc_key_coordinate_byte_size_from_curve_name (curve_name_out l) in
    key_strings (pending decoder) = [scalar; blob]
    \/ key_strings (pending decoder) = [blob; scalar] ->
    curve_name_recognized l = true ->
    private_sized size scalar ->
    public_sized size blob ->
    aws_der_decoder_load_ecc_key_pair m decoder out
    = (AWS_OP_SUCCESS,
       {| out_public_x_coor := {| len := size; ptr := ptr_add (ptr blob) 1 |};
          out_public_y_coor :=
            {| len := size; ptr := ptr_add (ptr_add (ptr blob) 1) size |};
          out_private_d := scalar;
          out_curve_name := curve_name_out l |}).
Proof.
  intros m decoder out scalar blob l size K R P Q.
  pose proof (recognized_coordinate_size m decoder out R) as S.
  fold l size in S.
  destruct (locals_after_fields m decoder out) as (P1 & P2 & _ & _).
  fold l in P1, P2.
  rewrite (load_recognized_form m decoder out R). fold l size.
  destruct (private_sized_tests size scalar S P) as [T1 T2].
  destruct (public_sized_tests size blob S Q) as [T3 T4].
  unfold chosen.
  destruct K as [K | K]; rewrite K in P1, P2; simpl in P1, P2;
    rewrite P1, P2, ?T1, ?T2, ?T3, ?T4; reflexivity.
Qed.

Lemma key_pair_in_either_order_witness :
  aws_der_decoder_load_ecc_key_pair p384_memory
    (decoder_over [tok_p384_point; tok_p384_oid; tok_p384_scalar])
    (sample_outputs 7)
  = (AWS_OP_SUCCESS,
     {| out_public_x_coor := view 54 48;
        out_public_y_coor := view 102 48;
        out_private_d := view 5 48;
        out_curve_name := AWS_CAL_ECDSA_P384 |}).
Proof.
  apply (key_pair_in_either_order p384_memory
           (decoder_over [tok_p384_point; tok_p384_oid; tok_p384_scalar])
           (sample_outputs 7) (view 5 48) (view 53 97)).
  - right. reflexivity.
  - reflexivity.
  - split; [discriminate | reflexivity].
  - split; [discriminate | reflexivity].
Defined.

(** X13: the last curve named wins, on every path.  Whether the call
    succeeds or fails, [*out_curve_name] ends as the curve of the last
    OBJECT_IDENTIFIER token that carries a supported curve OID, and as the
    caller's value when there is none; later unrecognized OIDs do not undo an
    earlier match. *)
Theorem curve_name_is_last_named :
  forall (m : memory) (decoder : aws_der_decoder) (out : outputs),
    out_curve_name (snd (aws_der_decoder_load_ecc_key_pair m decoder out))
    = last (recognized_curves m (pending decoder)) (out_curve_name out).
Proof.
  intros m decoder out.
  destruct (locals_after_fields m decoder out) as (_ & _ & _ & N).
  rewrite <- N.
  destruct (curve_name_recognized (locals_after m decoder out)) eqn:R.
  - rewrite (load_recognized_form m decoder out R).
    destruct (chosen _ _), (chosen _ _); reflexivity.
  - now rewrite (load_unrecognized m decoder out R).
Qed.

Example curve_named_twice :
  aws_der_decoder_load_ecc_key_pair p256_memory
    (decoder_over
       [tok_p256_oid;
        {| tag := AWS_DER_OBJECT_IDENTIFIER; value := s_ecc_p384_oid |};
        tok_integer; tok_scalar_a])
    (sample_outputs 7)
  = (AWS_OP_ERR AWS_ERROR_CAL_MISSING_REQUIRED_KEY_COMPONENT,
     {| out_public_x_coor := zero_cursor;
        out_public_y_coor := zero_cursor;
        out_private_d := zero_cursor;
        out_curve_name := AWS_CAL_ECDSA_P384 |}).
Proof. vm_compute. reflexivity. Qed.

(** X14: of three or more key strings only the first and the last count.
    Two streams that name the same curves, start their key strings with the
    same view and end them with the same view decode alike, whatever key
    strings stand in between: those are overwritten in the second slot
    before anything reads them. *)
Theorem middle_key_strings_are_dropped :
  forall (m : memory) (d1 d2 : aws_der_decoder) (out1 out2 : outputs)
         (first last_one : aws_byte_cursor)
         (middle1 middle2 : list aws_byte_cursor),
    key_strings (pending d1) = first :: middle1 ++ [last_one] ->
    key_strings (pending d2) = first :: middle2 ++ [last_one] ->
    recognized_curves m (pending d1) = recognized_curves m (pending d2) ->
    out_curve_name out1 = out_curve_name out2 ->
    aws_der_decoder_load_ecc_key_pair m d1 out1
    = aws_der_decoder_load_ecc_key_pair m d2 out2.
Proof.
  intros m d1 d2 out1 out2 first last_one middle1 middle2 K1 K2 C O.
  destruct (locals_after_fields m d1 out1) as (P1 & P2 & R & N).
  destruct (locals_after_fields m d2 out2) as (Q1 & Q2 & R' & N').
  apply load_same_slots;
    rewrite ?P1, ?P2, ?R, ?N, ?Q1, ?Q2, ?R', ?N', ?K1, ?K2, ?C, ?O;
    cbn [hd tl]; rewrite ?last_last; reflexivity.
Qed.

Lemma middle_key_strings_are_dropped_witness :
  aws_der_decoder_load_ecc_key_pair p256_memory
    (decoder_over [tok_p256_oid; tok_scalar_a; tok_point; tok_scalar_b])
    (sample_outputs 7)
  = aws_der_decoder_load_ecc_key_pair p256_memory
      (decoder_over [tok_p256_oid; tok_scalar_a; tok_scalar_b])
      (sample_outputs 7).
Proof.
  apply (middle_key_strings_are_dropped p256_memory
           (decoder_over [tok_p256_oid; tok_scalar_a; tok_point; tok_scalar_b])
           (decoder_over [tok_p256_oid; tok_scalar_a; tok_scalar_b])
           (sample_outputs 7) (sample_outputs 7)
           (view 8 32) (view 105 32) [view 40 65] []);
    reflexivity.
Defined.

(** X15: the decoder recognizes the registry's own OIDs.  For a curve name
    on which [aws_ecc_oid_from_curve_name] succeeds, a stream made of an
    OBJECT_IDENTIFIER token over the cursor it stored and an OCTET_STRING
    token over a non-null view of the curve's coordinate size decodes with
    success to that curve name and that view as the private view. *)
Theorem registry_oid_is_decoded :
  forall (m : memory) (curve_name : Z) (oid0 entry scalar : aws_byte_cursor)
         (out : outputs),
    aws_ecc_oid_from_curve_name curve_name oid0
    = Returns (AWS_OP_SUCCESS, entry) ->
    ptr scalar <> NULL ->
    len scalar
    = aws_ecc_key_coordinate_byte_size_from_curve_name curve_name ->
    aws_der_decoder_load_ecc_key_pair m
      (decoder_over
         [ {| tag := AWS_DER_OBJECT_IDENTIFIER; value := entry |};
           {| tag := AWS_DER_OCTET_STRING; value := scalar |} ])
      out
    = (AWS_OP_SUCCESS,
       {| out_public_x_coor := zero_cursor;
          out_public_y_coor := zero_cursor;
          out_private_d := scalar;
          out_curve_name := curve_name |}).
Proof.
  intros m curve_name oid0 entry scalar out H N L.
  unfold aws_ecc_oid_from_curve_name, AWS_CAL_ECDSA_P256,
    AWS_CAL_ECDSA_P384 in H.
  destruct (Z.ltb_spec curve_name 0); simpl in H; [discriminate H|].
  destruct (Z.gtb_spec curve_name 1); simpl in H; [discriminate H|].
  assert (curve_name = 0 \/ curve_name = 1) as [-> | ->] by lia;
    simpl in H; inversion H; subst entry; clear H;
    destruct scalar as [l [|base off]]; simpl in N, L;
    try (now elim N); subst l; reflexivity.
Qed.

Lemma registry_oid_is_decoded_witness :
  aws_der_decoder_load_ecc_key_pair p384_memory
    (decoder_over
       [ {| tag := AWS_DER_OBJECT_IDENTIFIER; value := s_ecc_p384_oid |};
         {| tag := AWS_DER_OCTET_STRING; value := view 5 48 |} ])
    (sample_outputs 7)
  = (AWS_OP_SUCCESS,
     {| out_public_x_coor := zero_cursor;
        out_public_y_coor := zero_cursor;
        out_private_d := view 5 48;
        out_curve_name := AWS_CAL_ECDSA_P384 |}).
Proof.
  apply (registry_oid_is_decoded p384_memory AWS_CAL_ECDSA_P384 zero_cursor
           s_ecc_p384_oid (view 5 48) (sample_outputs 7));
    [reflexivity | discriminate | reflexivity].
Defined.

Lemma recognized_curves_by_oid_bytes (m1 m2 : memory)
                                     (tokens : list der_tlv) :
  (forall t, In t tokens -> tag t = AWS_DER_OBJECT_IDENTIFIER ->
             cursor_bytes m1 (value t) = cursor_bytes m2 (value t)) ->
  recognized_curves m1 tokens = recognized_curves m2 tokens.
Proof.
  induction tokens as [|t tokens IH]; intros H; simpl; [reflexivity|].
  rewrite IH by (intros u I; apply H; now right).
  unfold curve_of_token.
  destruct (Z.eqb_spec (tag t) AWS_DER_OBJECT_IDENTIFIER) as [O|_];
    [|reflexivity].
  now rewrite (H t (or_introl eq_refl) O).
Qed.

(** X16: the function reads the bytes of OBJECT_IDENTIFIER tokens and no
    others.  Two memories that agree on the bytes under every
    OBJECT_IDENTIFIER token of the stream give the same result and the same
    outputs: the bytes of the key strings, the format byte of a public blob
    among them, have no part in the outcome. *)
Theorem key_bytes_are_never_read :
  forall (m1 m2 : memory) (decoder : aws_der_decoder) (out : outputs),
    (forall t, In t (pending decoder) ->
               tag t = AWS_DER_OBJECT_IDENTIFIER ->
               cursor_bytes m1 (value t) = cursor_bytes m2 (value t)) ->
    aws_der_decoder_load_ecc_key_pair m1 decoder out
    = aws_der_decoder_load_ecc_key_pair m2 decoder out.
Proof.
  intros m1 m2 decoder out H. apply load_same_material.
  - now apply recognized_curves_by_oid_bytes.
  - reflexivity.
  - reflexivity.
Qed.

Lemma key_bytes_are_never_read_witness :
  aws_der_decoder_load_ecc_key_pair p256_memory
    (decoder_over [tok_p256_oid; tok_scalar_a; tok_point]) (sample_outputs 7)
  = aws_der_decoder_load_ecc_key_pair (s_p256_oid ++ repeat 0 200%nat)
      (decoder_over [tok_p256_oid; tok_scalar_a; tok_point])
      (sample_outputs 7).
Proof.
  apply (key_bytes_are_never_read p256_memory (s_p256_oid ++ repeat 0 200%nat)
           (decoder_over [tok_p256_oid; tok_scalar_a; tok_point])
           (sample_outputs 7)).
  simpl. intros t [<- | [<- | [<- | []]]] O.
  - reflexivity.
  - discriminate O.
  - discriminate O.
Defined.

(* ===================================================================== *)
(** ** Key-pair handle: further properties *)
(* ===================================================================== *)

Section HandleSchedules.

Context {World : Type}.
Implicit Types (s : machine World) (key_pair : key_pair_ptr).


Lemma run_schedule_app key_pair (a b : list handle_op) s :
  run_schedule key_pair (a ++ b) s
  = match run_schedule key_pair a s with
    | Completes _ s' => run_schedule key_pair b s'
    | Aborts => Aborts
    end.
Proof.
  revert s. induction a as [|op a IH]; intros s; [reflexivity|].
  simpl. unfold bind. destruct (run_op key_pair op s); [apply IH|reflexivity].
Qed.

Lemma well_paired_releases (k : nat) (outstanding : Z) :
  Z.of_nat k <= outstanding ->
  well_paired outstanding (repeat op_release k) = true
  /\ balance (repeat op_release k) = - Z.of_nat k.
Proof.
  revert outstanding. induction k as [|k IH]; intros outstanding H.
  - split; reflexivity.
  - destruct (IH (outstanding - 1)) as [W B]; [lia|].
    cbn [repeat well_paired balance]. rewrite W, B. split; [|lia].
    apply andb_true_iff. split; [apply Z.ltb_lt; lia | reflexivity].
Qed.


End HandleSchedules.



(** X18: as many releases as the count destroy the key pair once, at the
    last of them.  From a count [c] between 1 and [SIZE_MAX], on a non-null
    handle whose vtable has [destroy], fewer than [c] releases call nothing
    and leave the count at [c] less their number; [c] releases leave the
    count at 0 and have called [destroy] exactly once, on this key pair. *)
Theorem releases_down_to_zero :
  forall (World : Type) (s : machine World) (key_pair : key_pair_ptr)
         (d : key_pair_ptr -> World -> World) (c : Z),
    key_pair <> 0 ->
    destroy (vtable (heap s key_pair)) = Some d ->
    ref_count (heap s key_pair) = c ->
    1 <= c <= SIZE_MAX ->
    (forall k : nat,
       Z.of_nat k < c ->
       exists s',
         run_schedule key_pair (repeat op_release k) s = Completes tt s' /\
         ref_count (heap s' key_pair) = c - Z.of_nat k /\
         calls s' = calls s /\ world s' = world s) /\
    (exists s',
       run_schedule key_pair (repeat op_release (Z.to_nat c)) s
       = Completes tt s' /\
       ref_count (heap s' key_pair) = 0 /\
       calls s' = calls s ++ [slot_destroy] /\
       world s' = d key_pair (world s)).
Proof.
  intros World s key_pair d c N D E C.
  assert (forall k : nat,
            Z.of_nat k < c ->
            exists s',
              run_schedule key_pair (repeat op_release k) s = Completes tt s'
              /\ ref_count (heap s' key_pair) = c - Z.of_nat k
              /\ same_but_count s s' key_pair) as below.
  { intros k K.
    destruct (well_paired_releases k (c - 1)) as [W B]; [lia|].
    destruct (schedule_calls_nothing (repeat op_release k) s key_pair (c - 1))
      as (s' & R & Cn & S); [lia | lia | lia | exact W |].
    exists s'. split; [exact R|]. split; [lia | exact S]. }
  split.
  - intros k K. destruct (below k K) as (s' & R & Cn & _ & W & L).
    exists s'. auto.
  - destruct (below (Z.to_nat (c - 1))) as (s1 & R & Cn & V & W & L); [lia|].
    replace (Z.to_nat c) with (S (Z.to_nat (c - 1))) by lia.
    cbn [repeat]. rewrite repeat_cons, run_schedule_app, R.
    cbn [run_schedule]. unfold bind. cbn [run_op].
    rewrite (release_step_destroy s1 key_pair d)
      by (try rewrite V; try assumption; lia).
    eexists. split; [reflexivity|]. simpl. rewrite Z.eqb_refl, W, L.
    repeat split.
Qed.

Lemma releases_down_to_zero_witness :
  let s := sample_machine counting_vtable 3 in
  exists s',
    run_schedule 16 (repeat op_release (Z.to_nat 3)) s = Completes tt s' /\
    ref_count (heap s' 16) = 0 /\
    calls s' = calls s ++ [slot_destroy] /\
    world s' = S (world s).
Proof.
  intros s.
  apply (releases_down_to_zero nat s 16 (fun _ n => S n) 3);
    [discriminate | reflexivity | reflexivity | split; discriminate].
Defined.


